(** * First-Real-Agent: the customer-support tools and the monitored runner

    A shallow embedding of [src/first_real_agent.py]: the four tools
    ([check_order_status], [check_return_policy], [create_support_ticket],
    [check_inventory]) and the [MonitoredAgent] wrapper ([run],
    [get_metrics]), followed by the properties the specification states
    about them.

    Conventions.
    - Python [int] is [Z]; Python [float] is an IEEE-754 binary64 value,
      represented by the Standard Library's [spec_float] with precision 53
      and maximal exponent 1024, so every float operation below computes
      the correctly rounded result.
    - Python [str] is [string]: a text is held as its UTF-8 encoding, one
      8-bit character per byte, so a text of ASCII characters is held as it
      reads.  Python [bytes] is [string] as well, one character per byte.
    - A dict with string keys is a [gmap string pyval].
    - Code that can raise returns an [outcome]; code that reads or changes
      the databases, the clock or the metrics threads a state through the
      monad [M].
    - Logging writes to sinks that no function reads back; it is left out. *)

From Stdlib Require Import ZArith String Ascii List Lia.
From Stdlib Require Import Floats.SpecFloat.
From stdpp Require Import base option gmap strings list.

Local Open Scope string_scope.
Local Open Scope Z_scope.

(** ** Python values, exceptions and outcomes *)

Definition float : Type := spec_float.

Inductive pyval : Type :=
| PNone
| PBool (b : bool)
| PInt (n : Z)
| PFloat (x : float)
| PStr (s : string)
| PBytes (b : string).

Abbreviation pydict := (gmap string pyval).

(** An instance of [Exception]: its class and the text [str(e)] gives.
    (Interrupts, which derive from [BaseException] only, are not faults
    and are not modelled.) *)
Record exn : Type := Exn { exn_class : string; exn_str : string }.

Inductive outcome (A : Type) : Type :=
| Returns (a : A)
| Raises (e : exn).
Arguments Returns {A} a.
Arguments Raises {A} e.

(** State and exceptions: a mutation made before a [raise] stays. *)
Definition M (S A : Type) : Type := S -> outcome A * S.

Definition ret {S A} (a : A) : M S A := fun s => (Returns a, s).

Definition bind {S A B} (m : M S A) (k : A -> M S B) : M S B :=
  fun s =>
    match m s with
    | (Returns a, s') => k a s'
    | (Raises e, s') => (Raises e, s')
    end.

Definition raise {S A} (e : exn) : M S A := fun s => (Raises e, s).

(** [try: body / except Exception as e: handler e] *)
Definition try_except {S A} (body : M S A) (handler : exn -> M S A) : M S A :=
  fun s =>
    match body s with
    | (Returns a, s') => (Returns a, s')
    | (Raises e, s') => handler e s'
    end.

Definition get {S} : M S S := fun s => (Returns s, s).
Definition modify {S} (f : S -> S) : M S unit := fun s => (Returns tt, f s).
Definition lift_outcome {S A} (o : outcome A) : M S A := fun s => (o, s).

Declare Scope py_scope.
Delimit Scope py_scope with py.
Notation "x <- m ;; k" := (bind m (fun x => k))
  (at level 100, m at next level, right associativity) : py_scope.
Notation "m ;;; k" := (bind m (fun _ => k))
  (at level 100, right associativity) : py_scope.

(** ** Strings *)

(** The lower case of an ASCII character: the letters A-Z go to a-z. *)
Definition lower_char (c : ascii) : ascii :=
  let n := N_of_ascii c in
  if ((65 <=? n) && (n <=? 90))%N then ascii_of_N (n + 32) else c.

(** [b.lower()] for [bytes]: byte by byte, on the ASCII letters only. *)
Fixpoint bytes_lower (b : string) : string :=
  match b with
  | EmptyString => EmptyString
  | String c b' => String (lower_char c) (bytes_lower b')
  end.

(** Three characters, as UTF-8 writes them: the Kelvin sign U+212A,
    capital I with dot above U+0130, and small i followed by the
    combining dot above U+0307. *)
Definition kelvin_sign : string :=
  String "226" (String "132" (String "170" EmptyString)).

Definition capital_i_with_dot : string :=
  String "196" (String "176" EmptyString).

Definition small_i_with_dot : string :=
  String "i" (String "204" (String "135" EmptyString)).

(** [s.lower()] for [str], exact in its ASCII characters.  The letters
    A-Z go to a-z, and the two characters beyond ASCII whose lower case
    holds an ASCII letter go to it: the Kelvin sign to [k], capital I with
    dot above to [i] followed by the combining dot.  Any other character
    beyond ASCII is copied; [str.lower] may replace it, but only by
    characters beyond ASCII.  So the ASCII characters of the result, and
    the places where characters beyond ASCII separate them, are those of
    [s.lower()]: a search for an ASCII word, the one use [run] makes of
    the result, finds in it what it finds in [s.lower()]. *)
Fixpoint lower (s : string) : string :=
  match s with
  | EmptyString => EmptyString
  | String c s1 =>
      match s1 with
      | String c1 s2 =>
          if Ascii.eqb c "196" && Ascii.eqb c1 "176"
          then small_i_with_dot +:+ lower s2
          else
            match s2 with
            | String c2 s3 =>
                if Ascii.eqb c "226" && Ascii.eqb c1 "132" && Ascii.eqb c2 "170"
                then String "k" (lower s3)
                else String (lower_char c) (lower s1)
            | EmptyString => String (lower_char c) (lower s1)
            end
      | EmptyString => String (lower_char c) (lower s1)
      end
  end.

(** A byte that continues a character begun before it. *)
Definition is_continuation_byte (c : ascii) : bool :=
  let n := N_of_ascii c in ((128 <=? n) && (n <=? 191))%N.

(** [s[:n]] for [str]: the first [n] characters, each with all its
    bytes. *)
Fixpoint str_prefix (n : nat) (s : string) : string :=
  match s with
  | EmptyString => EmptyString
  | String c s' =>
      if is_continuation_byte c then String c (str_prefix n s')
      else match n with
           | O => EmptyString
           | S n' => String c (str_prefix n' s')
           end
  end.

(** [s.startswith(p)] *)
Fixpoint startswith (p s : string) : bool :=
  match p, s with
  | EmptyString, _ => true
  | String _ _, EmptyString => false
  | String a p', String b s' => if Ascii.eqb a b then startswith p' s' else false
  end.

(** [sub in s] for two strings. *)
Fixpoint str_in (sub s : string) : bool :=
  startswith sub s ||
  match s with
  | EmptyString => false
  | String _ s' => str_in sub s'
  end.

(** ** Floats *)

Definition prec : Z := 53.
Definition emax : Z := 1024.

Definition float_add : float -> float -> float := SFadd prec emax.
Definition float_mul : float -> float -> float := SFmul prec emax.
Definition float_div : float -> float -> float := SFdiv prec emax.

(** [float(n)] for an int, rounded to nearest even. *)
Definition float_of_int (n : Z) : float := binary_normalize prec emax n 0 false.

(** The integer [n] as an exact, not yet rounded, binary value. *)
Definition exact_int (n : Z) (zero_sign : bool) : float :=
  match n with
  | Z0 => S754_zero zero_sign
  | Zpos p => S754_finite false p 0
  | Zneg p => S754_finite true p 0
  end.

(** The quotient [a / b] of two ints ([b] not 0), rounded once. *)
Definition int_quot (a b : Z) : float :=
  float_div (exact_int a false) (exact_int b false).

(** The rounded quotient exceeds the largest float, [2^1024 - 2^971],
    exactly when [|a / b|] reaches the midpoint between it and [2^1024]. *)
Definition quotient_overflows (a b : Z) : bool :=
  (2 ^ 1024 - 2 ^ 970) * Z.abs b <=? Z.abs a.

(** [a / b] on ints. *)
Definition int_truediv (a b : Z) : outcome float :=
  if b =? 0 then Raises (Exn "ZeroDivisionError" "division by zero")
  else if quotient_overflows a b
       then Raises (Exn "OverflowError"
                      "integer division result too large for a float")
       else Returns (int_quot a b).

(** [x / n] for a float [x] and an int [n].  ([n] is a list length where
    this is used, so its conversion to a float cannot overflow.) *)
Definition float_truediv_int (x : float) (n : Z) : outcome float :=
  if n =? 0 then Raises (Exn "ZeroDivisionError" "float division by zero")
  else Returns (float_div x (float_of_int n)).

(** The floats [100.0] and [0.0]. *)
Definition float_100 : float := float_of_int 100.
Definition float_0 : float := S754_zero false.

(** [sum(l)] over a non-empty list of floats: the accumulator starts from
    the int 0 and adds from left to right. *)
Definition py_sum (l : list float) : float :=
  fold_left float_add l (S754_zero false).

(** The integer nearest to [num / den] ([den > 0]), ties to even. *)
Definition round_half_even (num den : Z) : Z :=
  let q := num / den in
  let r := num mod den in
  match 2 * r ?= den with
  | Lt => q
  | Gt => q + 1
  | Eq => if Z.even q then q else q + 1
  end.

(** [round(x, ndigits)] for a float and [ndigits >= 0]: the decimal with
    [ndigits] places nearest to the exact value of [x] (ties to even),
    converted back to the nearest float; infinities and NaN round to
    themselves. *)
Definition py_round (x : float) (ndigits : nat) : float :=
  match x with
  | S754_finite s m e =>
      let scale := 10 ^ Z.of_nat ndigits in
      let n :=
        match e with
        | Zneg k => round_half_even (Zpos m * scale) (2 ^ Zpos k)
        | _ => Zpos m * 2 ^ e * scale
        end in
      float_div (exact_int (if s then - n else n) s) (exact_int scale false)
  | _ => x
  end.

(** [round(v, 2)] as [get_metrics] calls it: on a float or on the int 0. *)
Definition py_round_val (v : pyval) (ndigits : nat) : pyval :=
  match v with
  | PFloat x => PFloat (py_round x ndigits)
  | other => other
  end.

(** ** Dates and times *)

(** A naive [datetime]: what [datetime.now()] returns. *)
Record datetime : Type := Datetime {
  year : Z; month : Z; day : Z;
  hour : Z; minute : Z; second : Z; microsecond : Z
}.

Definition is_leap (y : Z) : bool :=
  (y mod 4 =? 0) && (negb (y mod 100 =? 0) || (y mod 400 =? 0)).

Definition days_before_year (y : Z) : Z :=
  let y' := y - 1 in y' * 365 + y' / 4 - y' / 100 + y' / 400.

Definition days_in_month (y m : Z) : Z :=
  if m =? 2 then (if is_leap y then 29 else 28)
  else if (m =? 4) || (m =? 6) || (m =? 9) || (m =? 11) then 30 else 31.

Definition days_before_month (y m : Z) : Z :=
  fold_left Z.add (map (days_in_month y) (map Z.of_nat (seq 1 (Z.to_nat (m - 1))))) 0.

(** [d.toordinal()] *)
Definition toordinal (d : datetime) : Z :=
  days_before_year (year d) + days_before_month (year d) (month d) + day d.

(** [a - b] for two naive datetimes, as the number of microseconds the
    resulting [timedelta] stands for. *)
Definition datetime_sub (a b : datetime) : Z :=
  let days := toordinal a - toordinal b in
  let secs := (second a + minute a * 60 + hour a * 3600)
              - (second b + minute b * 60 + hour b * 3600) in
  (days * 86400 + secs) * 10 ^ 6 + (microsecond a - microsecond b).

(** [td.total_seconds()]: the microseconds divided by [10**6]. *)
Definition total_seconds (td : Z) : float := int_quot td (10 ^ 6).

(** The values [datetime] accepts ([MINYEAR] is 1, [MAXYEAR] is 9999). *)
Definition valid_datetime (d : datetime) : Prop :=
  1 <= year d <= 9999 /\ 1 <= month d <= 12 /\
  1 <= day d <= days_in_month (year d) (month d) /\
  0 <= hour d < 24 /\ 0 <= minute d < 60 /\ 0 <= second d < 60 /\
  0 <= microsecond d < 1000000.

Definition digit_char (n : Z) : ascii := ascii_of_N (48 + Z.to_N (n mod 10)).

(** A number printed in decimal, zero-padded to [width] digits. *)
Fixpoint zero_padded (width : nat) (n : Z) : string :=
  match width with
  | O => EmptyString
  | S w => zero_padded w (n / 10) +:+ String (digit_char n) EmptyString
  end.

(** The number of digits of a year. *)
Definition decimal_width (n : Z) : nat :=
  if n <? 10 then 1 else if n <? 100 then 2 else if n <? 1000 then 3 else 4.

(** [%Y], which [strftime] leaves to the C library: the year in decimal,
    not padded, so in four digits from the year 1000 on and in fewer
    before. *)
Definition strftime_Y (y : Z) : string := zero_padded (decimal_width y) y.

(** [d.strftime('%Y%m%d%H%M%S')]: the year, then each later field in two
    digits. *)
Definition strftime_YmdHMS (d : datetime) : string :=
  strftime_Y (year d) +:+ zero_padded 2 (month d) +:+ zero_padded 2 (day d) +:+
  zero_padded 2 (hour d) +:+ zero_padded 2 (minute d) +:+ zero_padded 2 (second d).

(** ** The databases *)

(** A value stored in a SQLite column, in one of the five storage
    classes. *)
Inductive sqlval : Type :=
| SNull
| SInt (n : Z)
| SReal (x : float)
| SText (s : string)
| SBlob (b : string).

(** The Python object [sqlite3] hands back for a stored value. *)
Definition py_of_sql (v : sqlval) : pyval :=
  match v with
  | SNull => PNone
  | SInt n => PInt n
  | SReal x => PFloat x
  | SText s => PStr s
  | SBlob b => PBytes b
  end.

(** [orders(id, status, order_date, total_amount)] *)
Record order_row : Type := OrderRow {
  o_id : sqlval; o_status : sqlval; o_order_date : sqlval; o_total_amount : sqlval
}.

(** [inventory(product_id, name, quantity, next_restock_date)] *)
Record inventory_row : Type := InventoryRow {
  i_product_id : sqlval; i_name : sqlval; i_quantity : sqlval;
  i_next_restock_date : sqlval
}.

(** [tickets(ticket_id, customer_email, issue, priority, status)] *)
Record ticket_row : Type := TicketRow {
  t_ticket_id : string; t_customer_email : string; t_issue : string;
  t_priority : string; t_status : string
}.

(** Everything outside the process: the wall clock, as the sequence of
    readings successive calls of [datetime.now()] obtain, and the three
    databases. *)
Record World : Type := mkWorld {
  clock : nat -> datetime;
  ticks : nat;
  orders : list order_row;
  inventory : list inventory_row;
  tickets : list ticket_row
}.

(** [datetime.now()] *)
Definition datetime_now : M World datetime :=
  fun w => (Returns (clock w (ticks w)),
            mkWorld (clock w) (S (ticks w)) (orders w) (inventory w) (tickets w)).

(** The world once the clock has been read. *)
Definition after_now (w : World) : World := snd (datetime_now w).

(** Modelled from the spec: the declaration of the [tickets] table is not
    part of the sources; the Ticket Store is "an append-only record sink",
    so [INSERT INTO tickets ... VALUES (...)] followed by [conn.commit()]
    always succeeds and adds one record at the end. *)
Definition insert_ticket (r : ticket_row) : M World unit :=
  modify (fun w => mkWorld (clock w) (ticks w) (orders w) (inventory w) (tickets w ++ [r])).

(** [cursor.fetchone()] after a [SELECT ... WHERE key = ?]: the first row
    the condition holds for, or [None]. *)
Definition fetchone {R : Type} (matches : R -> bool) (rows : list R) : option R :=
  List.find matches rows.

(** ** The customer service tools *)

(** [v > 0], as [check_inventory] evaluates it on a fetched column. *)
Definition py_gt_zero (v : pyval) : outcome bool :=
  match v with
  | PInt q => Returns (0 <? q)
  | PBool b => Returns b
  | PFloat x => Returns (SFltb (S754_zero false) x)
  | PNone =>
      Raises (Exn "TypeError"
                "'>' not supported between instances of 'NoneType' and 'int'")
  | PStr _ =>
      Raises (Exn "TypeError"
                "'>' not supported between instances of 'str' and 'int'")
  | PBytes _ =>
      Raises (Exn "TypeError"
                "'>' not supported between instances of 'bytes' and 'int'")
  end.

Definition policies : gmap string string :=
  {[ "electronics" := "30-day return window, must include original packaging";
     "clothing" := "60-day return window, must have tags attached";
     "furniture" := "14-day return window, assembly affects eligibility" ]}.

Definition check_return_policy (product_type : string) : string :=
  default "Standard 30-day return policy applies" (policies !! product_type).

(** [f"TKT-{now.strftime('%Y%m%d%H%M%S')}"] *)
Definition ticket_id_at (now : datetime) : string :=
  "TKT-" +:+ strftime_YmdHMS now.

Definition create_support_ticket (customer_email issue priority : string)
  : M World string :=
  (now <- datetime_now;;
   let ticket_id := ticket_id_at now in
   insert_ticket (TicketRow ticket_id customer_email issue priority "open");;;
   ret ("Support ticket " +:+ ticket_id +:+
        " created. Team will respond within 24 hours."))%py.

Section Lookups.

(** The comparisons SQLite applies in [WHERE id = ?] and in
    [WHERE product_id = ?] between a stored key and the bound string.
    They are fixed by the declared type and collation of the two key
    columns; the table declarations are not part of the sources. *)
Variable orders_key_eq : sqlval -> string -> bool.
Variable inventory_key_eq : sqlval -> string -> bool.

Definition check_order_status (order_id : string) : M World pydict :=
  (w <- get;;
   match fetchone (fun r => orders_key_eq (o_id r) order_id) (orders w) with
   | Some result =>
       ret {[ "order_id" := py_of_sql (o_id result);
              "status" := py_of_sql (o_status result);
              "order_date" := py_of_sql (o_order_date result);
              "total_amount" := py_of_sql (o_total_amount result) ]}
   | None => ret {[ "error" := PStr "Order not found" ]}
   end)%py.

Definition check_inventory (product_id : string) : M World pydict :=
  (w <- get;;
   match fetchone (fun r => inventory_key_eq (i_product_id r) product_id)
                  (inventory w) with
   | Some result =>
       in_stock <- lift_outcome (py_gt_zero (py_of_sql (i_quantity result)));;
       ret {[ "product_id" := py_of_sql (i_product_id result);
              "name" := py_of_sql (i_name result);
              "in_stock" := PBool in_stock;
              "quantity" := py_of_sql (i_quantity result);
              "next_restock" := py_of_sql (i_next_restock_date result) ]}
   | None => ret {[ "error" := PStr "Product not found" ]}
   end)%py.

End Lookups.

(** Two key columns as SQLite compares them with a bound string.  A [TEXT]
    column under the default collation matches a stored text equal to the
    string. *)
Definition text_key_eq (v : sqlval) (p : string) : bool :=
  match v with
  | SText s => String.eqb s p
  | _ => false
  end.

Definition digit_value (c : ascii) : option Z :=
  let n := N_of_ascii c in
  if ((48 <=? n) && (n <=? 57))%N then Some (Z.of_N n - 48) else None.

Fixpoint decimal_value (acc : Z) (s : string) : option Z :=
  match s with
  | EmptyString => Some acc
  | String c s' =>
      match digit_value c with
      | Some d => decimal_value (10 * acc + d) s'
      | None => None
      end
  end.

(** The integer a string of decimal digits spells. *)
Definition integer_literal (s : string) : option Z :=
  match s with
  | EmptyString => None
  | _ => decimal_value 0 s
  end.

(** An [INTEGER] column holding integers, compared with a bound string
    that is made of decimal digits only, the form in which the test scripts
    pass an order id: the string is converted to the number it spells
    before the comparison.  (SQLite converts a sign, surrounding blanks and
    real notation as well; strings of those forms are outside this
    definition, which answers [false] for them.) *)
Definition integer_key_eq (v : sqlval) (p : string) : bool :=
  match v, integer_literal p with
  | SInt n, Some k => n =? k
  | _, _ => false
  end.

(** ** The monitored agent *)

(** [self.metrics] *)
Record Metrics : Type := mkMetrics {
  total_queries : Z;
  successful_resolutions : Z;
  escalations : Z;
  average_response_time : list float
}.

(** The metrics of one [MonitoredAgent] together with the world it runs in. *)
Record State : Type := mkState { metrics : Metrics; world : World }.

(** [MonitoredAgent.__init__]: the initial metrics. *)
Definition MonitoredAgent_init : Metrics := mkMetrics 0 0 0 [].

Definition in_world {A} (m : M World A) : M State A :=
  fun s => let '(o, w) := m (world s) in (o, mkState (metrics s) w).

Definition update_metrics (f : Metrics -> Metrics) : M State unit :=
  modify (fun s => mkState (f (metrics s)) (world s)).

Definition incr_total_queries (m : Metrics) : Metrics :=
  mkMetrics (total_queries m + 1) (successful_resolutions m) (escalations m)
            (average_response_time m).

Definition incr_successful_resolutions (m : Metrics) : Metrics :=
  mkMetrics (total_queries m) (successful_resolutions m + 1) (escalations m)
            (average_response_time m).

Definition incr_escalations (m : Metrics) : Metrics :=
  mkMetrics (total_queries m) (successful_resolutions m) (escalations m + 1)
            (average_response_time m).

Definition append_response_time (t : float) (m : Metrics) : Metrics :=
  mkMetrics (total_queries m) (successful_resolutions m) (escalations m)
            (average_response_time m ++ [t]).

Definition type_name (v : pyval) : string :=
  match v with
  | PNone => "NoneType"
  | PBool _ => "bool"
  | PInt _ => "int"
  | PFloat _ => "float"
  | PStr _ => "str"
  | PBytes _ => "bytes"
  end.

(** [d[k]] *)
Definition getitem (d : pydict) (k : string) : outcome pyval :=
  match d !! k with
  | Some v => Returns v
  | None => Raises (Exn "KeyError" ("'" +:+ k +:+ "'"))
  end.

(** [v.lower()] *)
Definition py_lower (v : pyval) : outcome pyval :=
  match v with
  | PStr s => Returns (PStr (lower s))
  | PBytes b => Returns (PBytes (bytes_lower b))
  | _ => Raises (Exn "AttributeError"
                   ("'" +:+ type_name v +:+ "' object has no attribute 'lower'"))
  end.

(** [sub in v] for a string [sub]. *)
Definition py_contains (sub : string) (v : pyval) : outcome bool :=
  match v with
  | PStr s => Returns (str_in sub s)
  | PBytes _ =>
      Raises (Exn "TypeError" "a bytes-like object is required, not 'str'")
  | _ => Raises (Exn "TypeError"
                   ("argument of type '" +:+ type_name v +:+ "' is not iterable"))
  end.

(** The condition of [run], ["ticket" in output.lower()], on one output. *)
Definition mentions_ticket (output : pyval) : outcome bool :=
  match py_lower output with
  | Returns lowered => py_contains "ticket" lowered
  | Raises e => Raises e
  end.

Definition apology : string :=
  "I apologize, but I encountered an error. A support ticket has been created.".

(** The dicts [run] returns. *)
Definition success_reply (output : pyval) (response_time : float) : pydict :=
  {[ "status" := PStr "success";
     "response" := output;
     "response_time" := PFloat response_time ]}.

Definition error_reply (e : exn) : pydict :=
  {[ "status" := PStr "error";
     "response" := PStr apology;
     "error" := PStr (exn_str e) ]}.

Section Runner.

(** [self.agent.invoke({"input": query})]: the agent executor, an
    external collaborator.  It may read and change the world (through the
    tools it calls), and returns a dict or raises. *)
Variable agent_invoke : string -> M World pydict.

Definition run (query : string) (customer_id : option string) : M State pydict :=
  (start_time <- in_world datetime_now;;
   update_metrics incr_total_queries;;;
   try_except
     (result <- in_world (agent_invoke query);;
      end_time <- in_world datetime_now;;
      let response_time := total_seconds (datetime_sub end_time start_time) in
      update_metrics (append_response_time response_time);;;
      output <- lift_outcome (getitem result "output");;
      lowered <- lift_outcome (py_lower output);;
      escalated <- lift_outcome (py_contains "ticket" lowered);;
      (if escalated
       then update_metrics incr_escalations
       else update_metrics incr_successful_resolutions);;;
      ret (success_reply output response_time))
     (fun e => ret (error_reply e)))%py.

(** Successive invocations, as [test_agent] makes them. *)
Fixpoint run_all (queries : list string) : M State (list pydict) :=
  match queries with
  | [] => ret []
  | q :: rest =>
      (response <- run q None;;
       responses <- run_all rest;;
       ret (response :: responses))%py
  end.

End Runner.

(** [x / y * 100] on two ints: a rate in percent. *)
Definition percentage (x y : Z) : outcome float :=
  match int_truediv x y with
  | Returns q => Returns (float_mul q (float_of_int 100))
  | Raises e => Raises e
  end.

Definition get_metrics : M State pydict :=
  (s <- get;;
   let m := metrics s in
   avg_time <-
     match average_response_time m with
     | [] => ret (PInt 0)
     | times =>
         q <- lift_outcome
                (float_truediv_int (py_sum times) (Z.of_nat (length times)));;
         ret (PFloat q)
     end;;
   resolution_rate <-
     (if 0 <? total_queries m
      then q <- lift_outcome
                  (percentage (successful_resolutions m) (total_queries m));;
           ret (PFloat q)
      else ret (PInt 0));;
   escalation_rate <-
     (if 0 <? total_queries m
      then q <- lift_outcome (percentage (escalations m) (total_queries m));;
           ret (PFloat q)
      else ret (PInt 0));;
   ret {[ "total_queries" := PInt (total_queries m);
          "resolution_rate" := resolution_rate;
          "escalation_rate" := escalation_rate;
          "average_response_time" := py_round_val avg_time 2 ]})%py.

(** ** Notions the specification uses *)

(** The letters a-z, and the capital of each. *)
Definition is_lower_letter (c : ascii) : bool :=
  let n := N_of_ascii c in ((97 <=? n) && (n <=? 122))%N.

Definition capital (c : ascii) : ascii :=
  if is_lower_letter c then ascii_of_N (N_of_ascii c - 32) else c.

(** The ways to write a letter of a lower-case word when letter case is
    ignored: the letter, its capital and, for k, the Kelvin sign, which
    Unicode gives the lower case (and the case folding) k. *)
Definition spellings (c : ascii) : list string :=
  String c EmptyString :: String (capital c) EmptyString ::
  (if Ascii.eqb c "k" then [kelvin_sign] else []).

(** [slice] is the lower-case word [token] up to letter case: letter by
    letter, one of its spellings. *)
Inductive spells_ignoring_case : string -> string -> Prop :=
| spells_empty : spells_ignoring_case EmptyString EmptyString
| spells_letter c token spelling slice :
    In spelling (spellings c) ->
    spells_ignoring_case token slice ->
    spells_ignoring_case (String c token) (spelling +:+ slice).

(** [text] contains the lower-case word [token] when letter case is
    ignored: some slice of [text] is [token] up to case. *)
Definition contains_ignoring_case (token text : string) : Prop :=
  exists before slice after,
    text = before +:+ slice +:+ after /\ spells_ignoring_case token slice.

(** A word of the letters a-z in which every i is followed by another
    letter, as in "ticket": the words for which the search in the lowered
    text is shown below to decide [contains_ignoring_case]. *)
Fixpoint plain_word (token : string) : bool :=
  match token with
  | EmptyString => true
  | String c rest =>
      is_lower_letter c &&
      (negb (Ascii.eqb c "i") || match rest with EmptyString => false | _ => true end) &&
      plain_word rest
  end.

(** [sub] occurs in [s]. *)
Definition occurs_in (sub s : string) : Prop :=
  exists before after, s = before +:+ sub +:+ after.

(** A key is present in a table when some row matches it, absent when no
    row does; the row a lookup answers with is the first that matches. *)
Definition present {R : Type} (matches : R -> bool) (rows : list R) : Prop :=
  exists r, In r rows /\ matches r = true.

Definition absent {R : Type} (matches : R -> bool) (rows : list R) : Prop :=
  forall r, In r rows -> matches r = false.

Definition first_match {R : Type} (matches : R -> bool) (rows : list R) (r : R)
  : Prop :=
  exists before after,
    rows = (before ++ r :: after)%list /\ matches r = true /\
    forall x, In x before -> matches x = false.

(** The replies of [run] that report a fault. *)
Definition is_error_reply (d : pydict) : bool :=
  match d !! "status" with
  | Some (PStr s) => String.eqb s "error"
  | _ => false
  end.

Definition count_errors (replies : list pydict) : Z :=
  Z.of_nat (length (List.filter is_error_reply replies)).

(** Two clock readings that agree down to the second. *)
Definition same_second (a b : datetime) : Prop :=
  year a = year b /\ month a = month b /\ day a = day b /\
  hour a = hour b /\ minute a = minute b /\ second a = second b.

(** The number a timestamp spells when printed year first, two digits for
    each later field. *)
Definition timestamp_number (d : datetime) : Z :=
  ((((year d * 100 + month d) * 100 + day d) * 100 + hour d) * 100 + minute d)
  * 100 + second d.

(** The arithmetic mean of a list of floats, and a float rounded to two
    decimal places. *)
Definition arithmetic_mean (l : list float) : float :=
  float_div (py_sum l) (float_of_int (Z.of_nat (length l))).

Definition rounded_to_2_places (x : float) : float := py_round x 2.

(** Counters as every run leaves them: neither outcome counter is
    negative or exceeds the number of queries. *)
Definition counters_in_range (m : Metrics) : Prop :=
  0 <= successful_resolutions m <= total_queries m /\
  0 <= escalations m <= total_queries m.

(** The value [get_metrics] reports under each key. *)
Definition reported_rate (count total : Z) : pyval :=
  if 0 <? total then PFloat (float_mul (int_quot count total) float_100)
  else PInt 0.

Definition reported_average (times : list float) : pyval :=
  match times with
  | [] => PInt 0
  | _ => PFloat (rounded_to_2_places (arithmetic_mean times))
  end.

Definition metrics_report (m : Metrics) : pydict :=
  {[ "total_queries" := PInt (total_queries m);
     "resolution_rate" := reported_rate (successful_resolutions m) (total_queries m);
     "escalation_rate" := reported_rate (escalations m) (total_queries m);
     "average_response_time" := reported_average (average_response_time m) ]}.

(** [get_metrics] returns in state [s], leaves it as it is, and reports
    the two rates [resolution] and [escalation]. *)
Definition reports_rates (s : State) (resolution escalation : pyval) : Prop :=
  exists report,
    get_metrics s = (Returns report, s) /\
    report !! "resolution_rate" = Some resolution /\
    report !! "escalation_rate" = Some escalation.

(** Successive ticket creations, one per (email, issue, priority). *)
Fixpoint create_all (calls : list (string * string * string))
  : M World (list string) :=
  match calls with
  | [] => ret []
  | (email, issue, priority) :: rest =>
      (msg <- create_support_ticket email issue priority;;
       msgs <- create_all rest;;
       ret (msg :: msgs))%py
  end.

(** The metrics once the dispatcher has returned in world [w'] and the
    elapsed time has been recorded. *)
Definition metrics_timed (s : State) (w' : World) : Metrics :=
  append_response_time
    (total_seconds (datetime_sub (clock w' (ticks w'))
                                 (clock (world s) (ticks (world s)))))
    (incr_total_queries (metrics s)).

(** ** Sample data *)


(** A clock that advances one second per reading. *)
Definition sample_clock (n : nat) : datetime :=
  Datetime 2024 1 15 10 30 (Z.of_nat n) 0.

(** The order and the product the repository's test scripts set up: the
    order is looked up as ["4"] and has the integer id 4. *)
Definition sample_world : World :=
  mkWorld sample_clock 0
    [OrderRow (SInt 4) (SText "shipped") (SText "2024-01-15")
              (SReal (int_quot 29999 100))]
    [InventoryRow (SText "PROD-XYZ") (SText "Wireless Headphones") (SInt 15)
                  (SText "2024-02-01")]
    [].

(** The same tables with text keys throughout. *)
Definition text_keyed_world : World :=
  mkWorld sample_clock 0
    [OrderRow (SText "ORD-1001") (SText "pending") (SText "2024-03-02")
              (SReal (int_quot 4950 100));
     OrderRow (SText "ORD-1002") (SText "delivered") (SText "2024-02-20")
              (SInt 120)]
    [InventoryRow (SText "PROD-XYZ") (SText "Wireless Headphones") (SInt 15)
                  (SText "2024-02-01");
     InventoryRow (SText "PROD-ABC") (SText "Desk Lamp") (SInt 0)
                  (SText "2024-04-10")]
    [].

Definition fresh_state : State := mkState MonitoredAgent_init sample_world.

(** An agent whose storage is unreachable. *)
Definition failing_agent (query : string) : M World pydict :=
  raise (Exn "OperationalError" "unable to open database file").

(** An agent that fails on a bare [assert]: [str(e)] is empty. *)
Definition asserting_agent (query : string) : M World pydict :=
  raise (Exn "AssertionError" "").

(** An agent that answers without escalating. *)
Definition resolving_agent (query : string) : M World pydict :=
  ret {[ "input" := PStr query; "output" := PStr "Your order has shipped." ]}.

(** Agents that answer in capitals, and with the Kelvin sign for the K. *)
Definition shouting_agent (query : string) : M World pydict :=
  ret {[ "input" := PStr query; "output" := PStr "Your TICKET #7 is open." ]}.

Definition kelvin_agent (query : string) : M World pydict :=
  ret {[ "input" := PStr query;
         "output" := PStr ("Your TIC" +:+ kelvin_sign +:+ "ET #7 is open.") ]}.

(** An agent that opens a ticket and reports it. *)
Definition escalating_agent (query : string) : M World pydict :=
  (msg <- create_support_ticket "customer@example.com" query "high";;
   ret {[ "input" := PStr query; "output" := PStr msg ]})%py.

(** ** The test driver of the agent module *)

(** [v[:100]] *)
Definition py_prefix_100 (v : pyval) : outcome pyval :=
  match v with
  | PStr s => Returns (PStr (str_prefix 100 s))
  | PBytes b => Returns (PBytes (String.substring 0 100 b))
  | _ => Raises (Exn "TypeError"
                   ("'" +:+ type_name v +:+ "' object is not subscriptable"))
  end.

(** Whether [f"{v:.2f}"] can be formatted. *)
Definition format_2f (v : pyval) : outcome unit :=
  match v with
  | PNone =>
      Raises (Exn "TypeError"
                "unsupported format string passed to NoneType.__format__")
  | PStr _ =>
      Raises (Exn "ValueError" "Unknown format code 'f' for object of type 'str'")
  | PBytes _ =>
      Raises (Exn "TypeError"
                "unsupported format string passed to bytes.__format__")
  | _ => Returns tt
  end.

(** [test['query']] on a test case, a dict from strings to strings. *)
Definition case_getitem (test : gmap string string) (k : string) : outcome string :=
  match test !! k with
  | Some v => Returns v
  | None => Raises (Exn "KeyError" ("'" +:+ k +:+ "'"))
  end.

(** [d.get(k, dflt)] *)
Definition dict_get (d : pydict) (k : string) (dflt : pyval) : pyval :=
  default dflt (d !! k).

Section TestAgent.

Variable agent_invoke : string -> M World pydict.

(** One turn of the loop of [test_agent]: the entry appended to [results].
    What the three [print] calls write is left out; what they evaluate is
    kept, since it can raise. *)
Definition test_agent_body (test : gmap string string) : M State pydict :=
  (query <- lift_outcome (case_getitem test "query");;
   response <- run agent_invoke query None;;
   reply <- lift_outcome (getitem response "response");;
   status <- lift_outcome (getitem response "status");;
   let entry : pydict :=
     {[ "query" := PStr query;
        "response" := reply;
        "status" := status;
        "time" := dict_get response "response_time" (PInt 0) ]} in
   lift_outcome (py_prefix_100 reply);;;
   lift_outcome (format_2f (dict_get response "response_time" (PInt 0)));;;
   ret entry)%py.

Fixpoint test_agent_from (results : list pydict) (test_cases : list (gmap string string))
  : M State (list pydict) :=
  match test_cases with
  | [] => ret results
  | test :: rest =>
      (entry <- test_agent_body test;;
       test_agent_from (results ++ [entry]) rest)%py
  end.

Definition test_agent (test_cases : list (gmap string string))
  : M State (list pydict) :=
  test_agent_from [] test_cases.

End TestAgent.

(** The test cases of the module. *)
Definition test_cases : list (gmap string string) :=
  [ {[ "query" := "Where is order #12345?";
       "expected_tool" := "check_order_status";
       "expected_outcome" := "Order status provided" ]};
    {[ "query" := "Can I return electronics after 45 days?";
       "expected_tool" := "check_return_policy";
       "expected_outcome" := "Policy clearly explained" ]};
    {[ "query" := "My $800 refund hasn't arrived and I'm furious!";
       "expected_tool" := "create_support_ticket";
       "expected_outcome" := "Empathetic escalation" ]};
    {[ "query" := "Is product XYZ in stock?";
       "expected_tool" := "check_inventory";
       "expected_outcome" := "Inventory status provided" ]} ].

(** What an entry of the result list holds, for a test case with the
    query [q]. *)
Definition entry_for (q : string) (entry : pydict) : Prop :=
  dom entry = {[ "query"; "response"; "status"; "time" ]} /\
  entry !! "query" = Some (PStr q) /\
  ((entry !! "status" = Some (PStr "error") /\
    entry !! "response" = Some (PStr apology) /\
    entry !! "time" = Some (PInt 0))
   \/
   (entry !! "status" = Some (PStr "success") /\
    exists reply t,
      entry !! "response" = Some (PStr reply) /\
      entry !! "time" = Some (PFloat t))).

(** ** The installation tester *)

(** [d.isoformat()] for a naive datetime. *)
Definition isoformat (d : datetime) : string :=
  zero_padded 4 (year d) +:+ "-" +:+ zero_padded 2 (month d) +:+ "-" +:+
  zero_padded 2 (day d) +:+ "T" +:+ zero_padded 2 (hour d) +:+ ":" +:+
  zero_padded 2 (minute d) +:+ ":" +:+ zero_padded 2 (second d) +:+
  (if microsecond d =? 0 then "" else "." +:+ zero_padded 6 (microsecond d)).

(** One logged result. *)
Record test_record : Type := TestRecord {
  r_test_name : string; r_status : string; r_message : string;
  r_error : option string; r_timestamp : string
}.

(** [self.test_results]: a list of results for each category, and the
    counters under ["overall"]; with the world the tester runs in.
    ([self.start_time] only feeds the elapsed time that is printed, and is
    left out.) *)
Record Tester : Type := mkTester {
  test_results : gmap string (list test_record);
  passed : Z;
  failed : Z;
  total : Z;
  tester_world : World
}.

(** [AgentInstallationTester.__init__] *)
Definition AgentInstallationTester_init (w : World) : Tester :=
  mkTester {[ "imports" := []; "databases" := []; "agent_functionality" := [];
              "environment" := [] ]} 0 0 0 w.

(** [log_test]; what it prints is left out.  (For a missing key [str(e)]
    is [repr(category)], written here with plain quotes.) *)
Definition log_test (category test_name status message : string)
    (error : option string) : M Tester unit :=
  fun t =>
    let '(now, w) := (clock (tester_world t) (ticks (tester_world t)),
                      after_now (tester_world t)) in
    let result := TestRecord test_name status message error (isoformat now) in
    if String.eqb category "overall"
    then (Raises (Exn "AttributeError" "'dict' object has no attribute 'append'"),
          mkTester (test_results t) (passed t) (failed t) (total t) w)
    else
      match test_results t !! category with
      | None =>
          (Raises (Exn "KeyError" ("'" +:+ category +:+ "'")),
           mkTester (test_results t) (passed t) (failed t) (total t) w)
      | Some logged =>
          let results := <[category := (logged ++ [result])%list]> (test_results t) in
          if String.eqb status "PASS"
          then (Returns tt, mkTester results (passed t + 1) (failed t) (total t + 1) w)
          else (Returns tt, mkTester results (passed t) (failed t + 1) (total t + 1) w)
      end.

(** The states a tester goes through: any calls of [log_test] after
    [__init__], whether they return or raise. *)
Inductive tester_reachable : Tester -> Prop :=
| reachable_init w : tester_reachable (AgentInstallationTester_init w)
| reachable_log category test_name status message error t :
    tester_reachable t ->
    tester_reachable (snd (log_test category test_name status message error t)).

Definition category_names : list string :=
  ["imports"; "databases"; "agent_functionality"; "environment"].

(** Every result logged so far, category by category. *)
Definition all_logged (t : Tester) : list test_record :=
  concat (map (fun c => default [] (test_results t !! c)) category_names).

Definition is_pass (r : test_record) : bool := String.eqb (r_status r) "PASS".

(** The counters agree with the results logged: the four categories are
    the only keys, and [total], [passed] and [failed] count all results,
    those with status "PASS" and the others. *)
Definition counters_match_log (t : Tester) : Prop :=
  (forall c, is_Some (test_results t !! c) <-> In c category_names) /\
  total t = Z.of_nat (length (all_logged t)) /\
  passed t = Z.of_nat (length (List.filter is_pass (all_logged t))) /\
  failed t
  = Z.of_nat (length (List.filter (fun r => negb (is_pass r)) (all_logged t))).

(** The closing message [run_all_tests] chooses. *)
Inductive banner : Type :=
| AllTestsPassed
| MostTestsPassed
| SeveralTestsFailed
| NoTestsExecuted.

Definition summary_banner (t : Tester) : outcome banner :=
  if 0 <? total t
  then match percentage (passed t) (total t) with
       | Raises e => Raises e
       | Returns success_rate =>
           if SFeqb success_rate float_100 then Returns AllTestsPassed
           else if SFleb (float_of_int 80) success_rate then Returns MostTestsPassed
           else Returns SeveralTestsFailed
       end
  else Returns NoTestsExecuted.

(** The status [main] exits with. *)
Definition exit_code (t : Tester) : Z := if failed t =? 0 then 0 else 1.

(** The float [1.0]. *)
Definition float_1 : float := float_of_int 1.

(** * Properties *)

Ltac unfold_monad :=
  unfold bind, try_except, in_world, update_metrics, modify, ret, raise, get,
    lift_outcome, datetime_now, after_now in *; simpl in *.


(** ** Strings *)

Local Arguments String.append !_ _ / : simpl nomatch.

Lemma append_empty_r (s : string) : s +:+ "" = s.
Proof. induction s as [|c s IH]; simpl; [reflexivity | now rewrite IH]. Qed.

Lemma append_assoc (a b c : string) : (a +:+ b) +:+ c = a +:+ (b +:+ c).
Proof. induction a as [|x a IH]; simpl; [reflexivity | now rewrite IH]. Qed.

Lemma append_cancel_l (p a b : string) : p +:+ a = p +:+ b -> a = b.
Proof.
  induction p as [|c p IH]; simpl; [trivial|]. intros [= H]. now apply IH.
Qed.

Lemma startswith_occurs (p s : string) :
  startswith p s = true <-> exists rest, s = p +:+ rest.
Proof.
  revert s. induction p as [|a p IH]; intros s; simpl.
  - split; [intros _; now exists s | reflexivity].
  - destruct s as [|b s]; simpl.
    + split; [discriminate | intros [rest H]; discriminate].
    + destruct (Ascii.eqb_spec a b) as [->|Hne].
      * rewrite IH. split; intros [rest H]; exists rest.
        -- now rewrite H.
        -- now injection H.
      * split; [discriminate | intros [rest H]; injection H; congruence].
Qed.

Lemma str_in_occurs (sub s : string) : str_in sub s = true <-> occurs_in sub s.
Proof.
  unfold occurs_in. induction s as [|c s IH]; simpl.
  - rewrite orb_false_r, startswith_occurs. split.
    + intros [rest H]. now exists "", rest.
    + intros [before [after H]]. destruct before; simpl in H.
      * now exists after.
      * discriminate.
  - rewrite orb_true_iff, startswith_occurs, IH. split.
    + intros [[rest H] | [before [after H]]].
      * now exists "", rest.
      * exists (String c before), after. simpl. now rewrite H.
    + intros [before [after H]]. destruct before as [|x before]; simpl in H.
      * left. now exists after.
      * right. injection H as _ H. now exists before, after.
Qed.

(** *** Lowering *)

Lemma lower_kelvin (s : string) : lower (kelvin_sign +:+ s) = String "k" (lower s).
Proof. reflexivity. Qed.

Lemma lower_capital_i_with_dot (s : string) :
  lower (capital_i_with_dot +:+ s) = small_i_with_dot +:+ lower s.
Proof. reflexivity. Qed.

(** A character other than the first byte of the two special characters
    is lowered on its own. *)
Lemma lower_plain (c : ascii) (s : string) :
  c <> "196"%char -> c <> "226"%char ->
  lower (String c s) = String (lower_char c) (lower s).
Proof.
  intros H1 H2. apply Ascii.eqb_neq in H1, H2.
  destruct s as [|c1 [|c2 s3]]; cbn [lower]; rewrite ?H1, ?H2; reflexivity.
Qed.

(** One step of [lower]: it takes the Kelvin sign, capital I with dot
    above, or one character. *)
Lemma lower_cases (s : string) :
  s = "" \/
  (exists rest, s = kelvin_sign +:+ rest /\ lower s = String "k" (lower rest)) \/
  (exists rest, s = capital_i_with_dot +:+ rest /\
                lower s = small_i_with_dot +:+ lower rest) \/
  (exists c rest, s = String c rest /\ lower s = String (lower_char c) (lower rest)).
Proof.
  destruct s as [|c [|c1 s2]]; [now left | |].
  - right; right; right. now exists c, "".
  - destruct (Ascii.eqb c "196" && Ascii.eqb c1 "176") eqn:Hi.
    + apply andb_true_iff in Hi as [Hc Hc1].
      apply Ascii.eqb_eq in Hc, Hc1. subst.
      right; right; left. now exists s2.
    + destruct s2 as [|c2 s3].
      * right; right; right. exists c, (String c1 "").
        split; [reflexivity|]. cbn [lower]. now rewrite Hi.
      * destruct (Ascii.eqb c "226" && Ascii.eqb c1 "132" && Ascii.eqb c2 "170")
          eqn:Hk.
        -- apply andb_true_iff in Hk as [Hk Hc2].
           apply andb_true_iff in Hk as [Hc Hc1].
           apply Ascii.eqb_eq in Hc, Hc1, Hc2. subst.
           right; left. now exists s3.
        -- right; right; right. exists c, (String c1 (String c2 s3)).
           split; [reflexivity|]. cbn [lower]. now rewrite Hi, Hk.
Qed.

(** Facts about single characters, checked on all 256 of them. *)
Ltac each_character c :=
  destruct c as [[] [] [] [] [] [] [] []]; vm_compute;
  try discriminate; try congruence; auto.

Lemma lower_letter_fixed c : is_lower_letter c = true -> lower_char c = c.
Proof. each_character c. Qed.

Lemma lower_capital c : is_lower_letter c = true -> lower_char (capital c) = c.
Proof. each_character c. Qed.

Lemma lower_char_letter x :
  is_lower_letter (lower_char x) = true ->
  x = lower_char x \/ x = capital (lower_char x).
Proof. each_character x. Qed.

Lemma letter_not_special c :
  is_lower_letter c = true ->
  c <> "196"%char /\ c <> "226"%char /\ capital c <> "196"%char /\
  capital c <> "226"%char /\ Ascii.eqb c "204" = false /\ Ascii.eqb c "135" = false /\
  c <> "132"%char /\ c <> "170"%char /\ c <> "176"%char /\
  capital c <> "132"%char /\ capital c <> "170"%char /\ capital c <> "176"%char.
Proof. each_character c; repeat split; discriminate. Qed.

(** In front of a character that continues neither special character,
    [lower] has finished one step when it arrives there. *)
Lemma lower_boundary (c0 : ascii) (s0 : string) :
  c0 <> "132"%char -> c0 <> "170"%char -> c0 <> "176"%char ->
  forall n before, (String.length before <= n)%nat ->
    exists lowered,
      lower (before +:+ String c0 s0) = lowered +:+ lower (String c0 s0).
Proof.
  intros H132 H170 H176. induction n as [|n IH]; intros before Hn.
  - destruct before; [|simpl in Hn; lia]. now exists "".
  - destruct before as [|x bs]; [now exists ""|]. simpl in Hn.
    destruct (lower_cases (String x bs +:+ String c0 s0))
      as [H | [(rest & Hs & Hl) | [(rest & Hs & Hl) | (c & rest & Hs & Hl)]]].
    + discriminate.
    + rewrite Hl. destruct bs as [|b1 [|b2 bs]]; simpl in Hs, Hn.
      * injection Hs as _ Hs _. congruence.
      * injection Hs as _ _ Hs _. congruence.
      * injection Hs as _ _ _ <-.
        destruct (IH bs ltac:(lia)) as [lowered ->].
        now exists (String "k" lowered).
    + rewrite Hl. destruct bs as [|b1 bs]; simpl in Hs, Hn.
      * injection Hs as _ Hs _. congruence.
      * injection Hs as _ _ <-.
        destruct (IH bs ltac:(lia)) as [lowered ->].
        exists (small_i_with_dot +:+ lowered). now rewrite append_assoc.
    + rewrite Hl. simpl in Hs. injection Hs as _ <-.
      destruct (IH bs ltac:(lia)) as [lowered ->].
      now exists (String (lower_char c) lowered).
Qed.

(** *** Containing a word when case is ignored *)

Lemma plain_word_letter c rest :
  plain_word (String c rest) = true ->
  is_lower_letter c = true /\ plain_word rest = true /\
  (c = "i"%char -> exists c' rest', rest = String c' rest').
Proof.
  simpl. intros H. apply andb_true_iff in H as [H Hrest].
  apply andb_true_iff in H as [Hc Hi]. repeat split; try assumption.
  intros ->. destruct rest as [|c' rest']; [discriminate | now exists c', rest'].
Qed.

Lemma spells_itself token : plain_word token = true -> spells_ignoring_case token token.
Proof.
  induction token as [|c token IH]; intros H; [constructor|].
  apply plain_word_letter in H as (_ & Hrest & _).
  apply (spells_letter c token (String c "") token); [now left | now apply IH].
Qed.

(** A slice that spells a word is lowered to the word. *)
Lemma lower_spelling token slice :
  spells_ignoring_case token slice -> plain_word token = true ->
  forall rest, lower (slice +:+ rest) = token +:+ lower rest.
Proof.
  induction 1 as [|c token spelling slice Hin _ IH]; intros Hw rest; [reflexivity|].
  apply plain_word_letter in Hw as (Hc & Hw & _).
  destruct (letter_not_special c Hc) as (N1 & N2 & N3 & N4 & _).
  rewrite append_assoc. unfold spellings in Hin.
  destruct Hin as [<- | [<- | Hin]].
  - cbn [String.append].
    rewrite lower_plain, lower_letter_fixed, IH by assumption. reflexivity.
  - cbn [String.append].
    rewrite lower_plain, lower_capital, IH by assumption. reflexivity.
  - destruct (Ascii.eqb_spec c "k") as [->|]; [|destruct Hin].
    destruct Hin as [<- | []]. rewrite lower_kelvin, IH by assumption. reflexivity.
Qed.

(** The first character of a slice that spells a word. *)
Lemma spelling_head c token slice :
  spells_ignoring_case (String c token) slice -> is_lower_letter c = true ->
  exists c0 s0, slice = String c0 s0 /\
    c0 <> "132"%char /\ c0 <> "170"%char /\ c0 <> "176"%char.
Proof.
  intros H Hc. inversion H as [|? ? spelling slice' Hin _]; subst.
  destruct (letter_not_special c Hc)
    as (_ & _ & _ & _ & _ & _ & A1 & A2 & A3 & B1 & B2 & B3).
  unfold spellings in Hin. destruct Hin as [<- | [<- | Hin]].
  - now exists c, slice'.
  - now exists (capital c), slice'.
  - destruct (Ascii.eqb c "k"); [|destruct Hin]. destruct Hin as [<- | []].
    exists "226"%char, (String "132" (String "170" slice')).
    repeat split; discriminate.
Qed.

(** Where the lowered text begins with the word, the text begins with a
    spelling of it. *)
Lemma startswith_lower_spelling token :
  plain_word token = true ->
  forall text, startswith token (lower text) = true ->
    exists slice after, text = slice +:+ after /\ spells_ignoring_case token slice.
Proof.
  induction token as [|c token IH]; intros Hw text H.
  - exists "", text. split; [reflexivity | constructor].
  - apply plain_word_letter in Hw as (Hc & Hw & Hi).
    destruct (lower_cases text)
      as [-> | [(rest & -> & Hl) | [(rest & -> & Hl) | (x & rest & -> & Hl)]]].
    + discriminate.
    + rewrite Hl in H. simpl in H.
      destruct (Ascii.eqb_spec c "k") as [->|]; [|discriminate].
      destruct (IH Hw rest H) as (slice & after & -> & Hs).
      exists (kelvin_sign +:+ slice), after. split; [now rewrite append_assoc|].
      apply spells_letter; [right; right; now left | exact Hs].
    + rewrite Hl in H. simpl in H.
      destruct (Ascii.eqb_spec c "i") as [->|]; [|discriminate].
      destruct (Hi eq_refl) as (c' & rest' & ->).
      apply plain_word_letter in Hw as (Hc' & _ & _).
      destruct (letter_not_special c' Hc') as (_ & _ & _ & _ & N & _).
      simpl in H. rewrite N in H. discriminate.
    + rewrite Hl in H. simpl in H.
      destruct (Ascii.eqb_spec c (lower_char x)) as [->|]; [|discriminate].
      destruct (IH Hw rest H) as (slice & after & -> & Hs).
      exists (String x slice), after. split; [reflexivity|].
      apply (spells_letter (lower_char x) token (String x "") slice); [|exact Hs].
      destruct (lower_char_letter x Hc) as [E | E]; [left | right; left];
        now rewrite <- E.
Qed.

Lemma contains_further p token text :
  contains_ignoring_case token text -> contains_ignoring_case token (p +:+ text).
Proof.
  intros (before & slice & after & -> & Hs).
  exists (p +:+ before), slice, after. now rewrite append_assoc.
Qed.

Lemma str_in_lower_spelling c token :
  plain_word (String c token) = true ->
  forall n text, (String.length text <= n)%nat ->
    str_in (String c token) (lower text) = true ->
    contains_ignoring_case (String c token) text.
Proof.
  intros Hw. pose proof (plain_word_letter _ _ Hw) as (Hc & _ & _).
  destruct (letter_not_special c Hc) as (_ & _ & _ & _ & N204 & N135 & _).
  assert (Hstart : forall text,
    startswith (String c token) (lower text) = true ->
    contains_ignoring_case (String c token) text).
  { intros text H.
    destruct (startswith_lower_spelling _ Hw text H) as (slice & after & -> & Hs).
    now exists "", slice, after. }
  induction n as [|n IH]; intros text Hn H.
  - destruct text; [discriminate | simpl in Hn; lia].
  - destruct (startswith (String c token) (lower text)) eqn:Hsw;
      [now apply Hstart|].
    destruct (lower_cases text)
      as [-> | [(rest & -> & Hl) | [(rest & -> & Hl) | (x & rest & -> & Hl)]]].
    + discriminate.
    + rewrite Hl in H, Hsw. cbn [str_in] in H. rewrite Hsw in H.
      apply contains_further, (IH rest); [simpl in Hn; lia | exact H].
    + rewrite Hl in H, Hsw. cbn [small_i_with_dot String.append str_in] in H, Hsw.
      rewrite Hsw in H. cbn [startswith orb] in H. rewrite N204, N135 in H.
      apply contains_further, (IH rest); [simpl in Hn; lia | exact H].
    + rewrite Hl in H, Hsw. cbn [str_in] in H. rewrite Hsw in H.
      apply (contains_further (String x "")), (IH rest); [simpl in Hn; lia | exact H].
Qed.

(** The test [run] makes on a text, ["ticket" in output.lower()], decides
    whether the text contains the word when letter case is ignored. *)
Lemma str_in_lower_ignoring_case (token text : string) :
  plain_word token = true ->
  (str_in token (lower text) = true <-> contains_ignoring_case token text).
Proof.
  intros Hw. split.
  - destruct token as [|c token].
    + intros _. exists "", "", text. split; [reflexivity | constructor].
    + apply (str_in_lower_spelling c token Hw (String.length text)). lia.
  - intros (before & slice & after & -> & Hs).
    apply str_in_occurs.
    destruct token as [|c token].
    + now exists "", (lower (before +:+ slice +:+ after)).
    + pose proof (plain_word_letter _ _ Hw) as (Hc & _ & _).
      destruct (spelling_head c token slice Hs Hc) as (c0 & s0 & -> & A1 & A2 & A3).
      destruct (lower_boundary c0 (s0 +:+ after) A1 A2 A3
                  (String.length before) before ltac:(lia)) as [lowered Hl].
      change (String c0 s0 +:+ after) with (String c0 (s0 +:+ after)).
      rewrite Hl.
      change (String c0 (s0 +:+ after)) with (String c0 s0 +:+ after).
      rewrite (lower_spelling _ _ Hs Hw). now exists lowered, (lower after).
Qed.

(** ** The runner, path by path *)

(** The dispatcher raises: the handler answers, and only [total_queries]
    has changed. *)
Lemma run_dispatcher_raises agent query customer_id s e w' :
  agent query (after_now (world s)) = (Raises e, w') ->
  run agent query customer_id s
  = (Returns (error_reply e), mkState (incr_total_queries (metrics s)) w').
Proof.
  intros H. unfold run. unfold_monad. now rewrite H.
Qed.

Lemma run_dispatcher_returns agent query customer_id s result w' :
  agent query (after_now (world s)) = (Returns result, w') ->
  run agent query customer_id s
  = match getitem result "output" with
    | Raises e => (Returns (error_reply e), mkState (metrics_timed s w') (after_now w'))
    | Returns output =>
        match mentions_ticket output with
        | Raises e =>
            (Returns (error_reply e), mkState (metrics_timed s w') (after_now w'))
        | Returns escalated =>
            (Returns (success_reply output
                        (total_seconds
                           (datetime_sub (clock w' (ticks w'))
                                         (clock (world s) (ticks (world s)))))),
             mkState ((if escalated
                       then incr_escalations
                       else incr_successful_resolutions) (metrics_timed s w'))
                     (after_now w'))
        end
    end.
Proof.
  intros H. unfold run, mentions_ticket. unfold_monad. rewrite H. simpl.
  destruct (getitem result "output") as [output|e]; [|reflexivity].
  destruct (py_lower output) as [lowered|e]; [|reflexivity].
  destruct (py_contains "ticket" lowered) as [escalated|e]; [|reflexivity].
  now destruct escalated.
Qed.

(** On a text the condition is the search in the lowered text. *)
Lemma mentions_ticket_text reply :
  mentions_ticket (PStr reply) = Returns (str_in "ticket" (lower reply)).
Proof. reflexivity. Qed.

(** What the two replies hold. *)
Lemma error_reply_lookup e :
  error_reply e !! "status" = Some (PStr "error") /\
  error_reply e !! "response" = Some (PStr apology) /\
  error_reply e !! "error" = Some (PStr (exn_str e)) /\
  error_reply e !! "response_time" = None.
Proof. repeat split; reflexivity. Qed.

Lemma success_reply_lookup output t :
  success_reply output t !! "status" = Some (PStr "success") /\
  success_reply output t !! "response" = Some output /\
  success_reply output t !! "response_time" = Some (PFloat t) /\
  success_reply output t !! "error" = None.
Proof. repeat split; reflexivity. Qed.

Lemma is_error_reply_error e : is_error_reply (error_reply e) = true.
Proof. reflexivity. Qed.

Lemma is_error_reply_success output t : is_error_reply (success_reply output t) = false.
Proof. reflexivity. Qed.

(** Every invocation returns a reply.  It counts one more query; a reply
    that reports a fault leaves both outcome counters as they were, any
    other reply goes with exactly one of them incremented. *)
Lemma run_step agent query customer_id s :
  exists d s',
    run agent query customer_id s = (Returns d, s') /\
    total_queries (metrics s') = total_queries (metrics s) + 1 /\
    ((is_error_reply d = true /\
      successful_resolutions (metrics s') = successful_resolutions (metrics s) /\
      escalations (metrics s') = escalations (metrics s))
     \/
     (is_error_reply d = false /\
      ((successful_resolutions (metrics s') = successful_resolutions (metrics s) + 1 /\
        escalations (metrics s') = escalations (metrics s))
       \/
       (successful_resolutions (metrics s') = successful_resolutions (metrics s) /\
        escalations (metrics s') = escalations (metrics s) + 1)))).
Proof.
  destruct (agent query (after_now (world s))) as [[result|e] w'] eqn:H.
  - rewrite (run_dispatcher_returns _ _ customer_id _ _ _ H).
    destruct (getitem result "output") as [output|e].
    + destruct (mentions_ticket output) as [escalated|e].
      * destruct escalated;
          (do 2 eexists; split; [reflexivity|]; split; [reflexivity|];
           right; split; [apply is_error_reply_success|]);
          [right | left]; split; reflexivity.
      * do 2 eexists. split; [reflexivity|]. split; [reflexivity|].
        left. split; [apply is_error_reply_error | split; reflexivity].
    + do 2 eexists. split; [reflexivity|]. split; [reflexivity|].
      left. split; [apply is_error_reply_error | split; reflexivity].
  - rewrite (run_dispatcher_raises _ _ customer_id _ _ _ H).
    do 2 eexists. split; [reflexivity|]. split; [reflexivity|].
    left. split; [apply is_error_reply_error | split; reflexivity].
Qed.

(** ** Counters over a sequence of invocations *)

Lemma count_errors_cons d replies :
  count_errors (d :: replies)
  = (if is_error_reply d then 1 else 0) + count_errors replies.
Proof.
  unfold count_errors. simpl. destruct (is_error_reply d); simpl length; lia.
Qed.

(** From any state: every invocation returns, each adds one to
    [total_queries], and each adds one to exactly one of
    [successful_resolutions], [escalations] and the number of fault replies. *)
Lemma run_all_accounting agent queries : forall s,
  exists replies s',
    run_all agent queries s = (Returns replies, s') /\
    length replies = length queries /\
    total_queries (metrics s')
    = total_queries (metrics s) + Z.of_nat (length queries) /\
    successful_resolutions (metrics s') + escalations (metrics s')
      + count_errors replies
    = successful_resolutions (metrics s) + escalations (metrics s)
      + Z.of_nat (length queries) /\
    successful_resolutions (metrics s) <= successful_resolutions (metrics s') /\
    escalations (metrics s) <= escalations (metrics s').
Proof.
  induction queries as [|q rest IH]; intros s.
  - exists [], s. simpl. unfold ret, count_errors. simpl.
    repeat split; lia.
  - destruct (run_step agent q None s) as (d & s1 & Hrun & Htotal & Hcases).
    destruct (IH s1) as (replies & s2 & Hall & Hlen & Htot2 & Hsum & Hs & He).
    exists (d :: replies), s2.
    simpl run_all. unfold bind at 1. rewrite Hrun.
    unfold bind at 1. rewrite Hall. unfold ret.
    rewrite count_errors_cons. simpl length. rewrite Hlen.
    split; [reflexivity|]. split; [reflexivity|].
    destruct Hcases as [(-> & H1 & H2) | (-> & [[H1 H2] | [H1 H2]])]; lia.
Qed.

(** C1 (as amended): on a fresh [MonitoredAgent], after any sequence of
    invocations of [run], whatever their outcomes, every invocation has
    returned a reply, [total_queries] is the number of invocations, and
    [successful_resolutions + escalations] plus the number of replies with
    status "error" equals [total_queries]; so the sum of the two counters
    never exceeds [total_queries]. *)
Theorem run_counters_account_for_every_invocation
    (agent : string -> M World pydict) (queries : list string) (w : World) :
  exists replies s',
    run_all agent queries (mkState MonitoredAgent_init w) = (Returns replies, s') /\
    total_queries (metrics s') = Z.of_nat (length queries) /\
    successful_resolutions (metrics s') + escalations (metrics s')
      + count_errors replies
    = total_queries (metrics s') /\
    successful_resolutions (metrics s') + escalations (metrics s')
    <= total_queries (metrics s').
Proof.
  destruct (run_all_accounting agent queries (mkState MonitoredAgent_init w))
    as (replies & s' & Hall & Hlen & Htot & Hsum & Hs & He).
  simpl in *. exists replies, s'.
  assert (0 <= count_errors replies) by (unfold count_errors; lia).
  repeat split; [assumption | lia ..].
Qed.

(** C1 (as stated) fails: one invocation whose dispatcher raises leaves
    [total_queries] at 1 and both outcome counters at 0. *)
Lemma run_counters_sum_counterexample :
  let s' := snd (run failing_agent "Where is my order #12345?" None fresh_state) in
  total_queries (metrics s') = 1 /\
  successful_resolutions (metrics s') + escalations (metrics s')
  <> total_queries (metrics s').
Proof. vm_compute. split; [reflexivity | discriminate]. Qed.

(** ** Integer division and [get_metrics] *)

Lemma quotient_in_range_no_overflow a b :
  0 <= a <= b -> 0 < b -> quotient_overflows a b = false.
Proof.
  intros Ha Hb. unfold quotient_overflows. apply Z.leb_gt.
  assert (Hk : 2 <= 2 ^ 1024 - 2 ^ 970) by (vm_compute; discriminate).
  rewrite !Z.abs_eq by lia.
  generalize dependent (2 ^ 1024 - 2 ^ 970). intros k Hk. nia.
Qed.

Lemma int_truediv_in_range a b :
  0 <= a <= b -> 0 < b -> int_truediv a b = Returns (int_quot a b).
Proof.
  intros Ha Hb. unfold int_truediv.
  destruct (Z.eqb_spec b 0) as [->|_]; [lia|].
  now rewrite quotient_in_range_no_overflow.
Qed.


Lemma percentage_in_range a b :
  0 <= a <= b -> 0 < b ->
  percentage a b = Returns (float_mul (int_quot a b) float_100).
Proof.
  intros Ha Hb. unfold percentage. now rewrite int_truediv_in_range.
Qed.

(** With counters in range (as [run] keeps them), and also whenever no
    query has been counted, [get_metrics] returns its report and leaves the
    state as it was. *)
Lemma get_metrics_returns s :
  counters_in_range (metrics s) \/ total_queries (metrics s) <= 0 ->
  get_metrics s = (Returns (metrics_report (metrics s)), s).
Proof.
  intros Hr. unfold get_metrics, metrics_report, reported_rate, reported_average.
  unfold_monad.
  destruct (Z.ltb_spec 0 (total_queries (metrics s))) as [Hpos|Hnonpos].
  - destruct Hr as [[Hs He]|Hz]; [|lia].
    rewrite !percentage_in_range by assumption.
    destruct (average_response_time (metrics s)) as [|t l]; reflexivity.
  - destruct (average_response_time (metrics s)) as [|t l]; reflexivity.
Qed.

Lemma metrics_report_lookup m :
  metrics_report m !! "total_queries" = Some (PInt (total_queries m)) /\
  metrics_report m !! "resolution_rate"
  = Some (reported_rate (successful_resolutions m) (total_queries m)) /\
  metrics_report m !! "escalation_rate"
  = Some (reported_rate (escalations m) (total_queries m)) /\
  metrics_report m !! "average_response_time"
  = Some (reported_average (average_response_time m)).
Proof. repeat split; reflexivity. Qed.

Lemma reports_rates_in_range s :
  counters_in_range (metrics s) ->
  reports_rates s
    (reported_rate (successful_resolutions (metrics s)) (total_queries (metrics s)))
    (reported_rate (escalations (metrics s)) (total_queries (metrics s))).
Proof.
  intros Hr. exists (metrics_report (metrics s)).
  split; [apply get_metrics_returns; now left|].
  split; apply metrics_report_lookup.
Qed.

(** ** The fault path of [run] *)

(** C2 (as amended): whenever the dispatcher call raises a fault [e],
    [run] returns the dict with status "error", the fixed apology as
    response, and [str(e)] as error field (empty exactly when the fault
    carries no message); neither [successful_resolutions] nor
    [escalations] changes; and the handler creates no support ticket: the
    world, ticket store included, is left as the dispatcher left it. *)
Theorem run_fault_reply agent query customer_id s e w' :
  agent query (after_now (world s)) = (Raises e, w') ->
  exists d s',
    run agent query customer_id s = (Returns d, s') /\
    d = error_reply e /\
    d !! "status" = Some (PStr "error") /\
    d !! "response" = Some (PStr apology) /\
    d !! "error" = Some (PStr (exn_str e)) /\
    (d !! "error" = Some (PStr "") <-> exn_str e = "") /\
    successful_resolutions (metrics s') = successful_resolutions (metrics s) /\
    escalations (metrics s') = escalations (metrics s) /\
    world s' = w' /\
    tickets (world s') = tickets w'.
Proof.
  intros H. do 2 eexists.
  split; [apply (run_dispatcher_raises _ _ _ _ _ _ H)|].
  split; [reflexivity|].
  destruct (error_reply_lookup e) as (Hs & Hr & He & _).
  repeat split; try assumption; try reflexivity.
  - rewrite He. intros [= Heq]. exact Heq.
  - intros Heq. rewrite He, Heq. reflexivity.
Qed.

Lemma run_fault_reply_witness :
  exists d s',
    run failing_agent "Where is my order #12345?" None fresh_state = (Returns d, s') /\
    d !! "error" = Some (PStr "unable to open database file") /\
    successful_resolutions (metrics s') = 0 /\
    escalations (metrics s') = 0 /\
    tickets (world s') = [].
Proof.
  destruct (run_fault_reply failing_agent "Where is my order #12345?" None
              fresh_state (Exn "OperationalError" "unable to open database file")
              (after_now sample_world) eq_refl)
    as (d & s' & Hrun & _ & _ & _ & Herr & _ & Hs & He & _ & Ht).
  exists d, s'. repeat split; assumption.
Defined.

(** C2 (as stated) fails where it asks for a non-empty error field: a
    dispatcher that raises a fault without a message, as a bare [assert]
    does, yields the error field [""]. *)
Lemma run_fault_empty_error_counterexample :
  asserting_agent "Where is my order #12345?" (after_now (world fresh_state))
  = (Raises (Exn "AssertionError" ""), after_now (world fresh_state)) /\
  exists d s',
    run asserting_agent "Where is my order #12345?" None fresh_state
    = (Returns d, s') /\
    d !! "status" = Some (PStr "error") /\
    d !! "error" = Some (PStr "").
Proof.
  split; [reflexivity|].
  do 2 eexists. split; [reflexivity|]. split; reflexivity.
Qed.

(** C9: whenever the dispatcher call raises, [run] itself returns a reply
    (the exception is not propagated), [total_queries] has grown by one,
    the latency sequence is unchanged, and the reply has no
    "response_time" key.  On every path, [run] returns a reply, and the
    reply has a "response_time" key exactly when its status is
    "success". *)
Theorem run_fault_contained agent query customer_id s :
  exists d s',
    run agent query customer_id s = (Returns d, s') /\
    (is_Some (d !! "response_time") <-> d !! "status" = Some (PStr "success")) /\
    forall e w',
      agent query (after_now (world s)) = (Raises e, w') ->
      total_queries (metrics s') = total_queries (metrics s) + 1 /\
      average_response_time (metrics s') = average_response_time (metrics s) /\
      d !! "response_time" = None.
Proof.
  assert (Herr : forall e,
    is_Some (error_reply e !! "response_time")
    <-> error_reply e !! "status" = Some (PStr "success")).
  { intros e. split; [intros [x Hx]; discriminate | discriminate]. }
  destruct (agent query (after_now (world s))) as [[result|e] w'] eqn:H.
  - rewrite (run_dispatcher_returns _ _ customer_id _ _ _ H).
    destruct (getitem result "output") as [output|e].
    + destruct (mentions_ticket output) as [escalated|e].
      * do 2 eexists. split; [reflexivity|]. split; [|discriminate].
        split; [reflexivity | intros _; eexists; reflexivity].
      * do 2 eexists. split; [reflexivity|]. split; [apply Herr | discriminate].
    + do 2 eexists. split; [reflexivity|]. split; [apply Herr | discriminate].
  - rewrite (run_dispatcher_raises _ _ customer_id _ _ _ H).
    do 2 eexists. split; [reflexivity|]. split; [apply Herr|].
    intros e' w'' _. repeat split.
Qed.

Lemma run_fault_contained_witness :
  exists d s',
    run failing_agent "Where is my order #12345?" None fresh_state = (Returns d, s') /\
    total_queries (metrics s') = 1 /\
    average_response_time (metrics s') = [] /\
    d !! "response_time" = None.
Proof.
  destruct (run_fault_contained failing_agent "Where is my order #12345?" None
              fresh_state) as (d & s' & Hrun & _ & Hfault).
  destruct (Hfault (Exn "OperationalError" "unable to open database file")
              (after_now sample_world) eq_refl) as (Ht & Hl & Hk).
  exists d, s'. repeat split; assumption.
Defined.

(** ** The success path of [run] *)

Lemma rate_one_of_one : reported_rate 1 1 = PFloat float_100.
Proof. vm_compute. reflexivity. Qed.

Lemma rate_none_of_one : reported_rate 0 1 = PFloat float_0.
Proof. vm_compute. reflexivity. Qed.

Lemma fresh_then_escalated_reports t w :
  reports_rates
    (mkState (incr_escalations
                (append_response_time t (incr_total_queries MonitoredAgent_init))) w)
    (PFloat float_0) (PFloat float_100).
Proof.
  rewrite <- rate_none_of_one, <- rate_one_of_one.
  refine (reports_rates_in_range
            (mkState (incr_escalations
                        (append_response_time t
                           (incr_total_queries MonitoredAgent_init))) w) _).
  unfold counters_in_range; simpl; lia.
Qed.

Lemma fresh_then_resolved_reports t w :
  reports_rates
    (mkState (incr_successful_resolutions
                (append_response_time t (incr_total_queries MonitoredAgent_init))) w)
    (PFloat float_100) (PFloat float_0).
Proof.
  rewrite <- rate_none_of_one, <- rate_one_of_one.
  refine (reports_rates_in_range
            (mkState (incr_successful_resolutions
                        (append_response_time t
                           (incr_total_queries MonitoredAgent_init))) w) _).
  unfold counters_in_range; simpl; lia.
Qed.

(** C3: whenever the dispatcher returns a result whose output is the
    text [reply], [run] returns the success reply, and: if [reply]
    contains "ticket" (letter case ignored), [escalations] is incremented
    and [successful_resolutions] is not; otherwise
    [successful_resolutions] is incremented and [escalations] is not.
    Consequently, when the runner was fresh, [get_metrics] afterwards
    reports resolution_rate 0.0 and escalation_rate 100.0 in the first
    case, and resolution_rate 100.0 and escalation_rate 0.0 in the
    second. *)
Theorem run_classifies_reply agent query customer_id s result reply w' :
  agent query (after_now (world s)) = (Returns result, w') ->
  result !! "output" = Some (PStr reply) ->
  exists t s',
    run agent query customer_id s = (Returns (success_reply (PStr reply) t), s') /\
    (contains_ignoring_case "ticket" reply ->
       escalations (metrics s') = escalations (metrics s) + 1 /\
       successful_resolutions (metrics s') = successful_resolutions (metrics s) /\
       (metrics s = MonitoredAgent_init ->
        reports_rates s' (PFloat float_0) (PFloat float_100))) /\
    (~ contains_ignoring_case "ticket" reply ->
       successful_resolutions (metrics s') = successful_resolutions (metrics s) + 1 /\
       escalations (metrics s') = escalations (metrics s) /\
       (metrics s = MonitoredAgent_init ->
        reports_rates s' (PFloat float_100) (PFloat float_0))).
Proof.
  intros H Hout.
  rewrite (run_dispatcher_returns _ _ customer_id _ _ _ H).
  unfold getitem. rewrite Hout, mentions_ticket_text.
  pose proof (str_in_lower_ignoring_case "ticket" reply eq_refl) as Hci.
  destruct (str_in "ticket" (lower reply)) eqn:Hin;
    do 2 eexists; (split; [reflexivity|]); simpl; split; intros Hc.
  - split; [reflexivity|]. split; [reflexivity|]. intros Hfresh.
    unfold metrics_timed. rewrite Hfresh. apply fresh_then_escalated_reports.
  - exfalso. apply Hc, Hci. reflexivity.
  - apply Hci in Hc. discriminate.
  - split; [reflexivity|]. split; [reflexivity|]. intros Hfresh.
    unfold metrics_timed. rewrite Hfresh. apply fresh_then_resolved_reports.
Qed.

Lemma run_classifies_reply_witness :
  exists t s',
    run shouting_agent "Where is my refund?" None fresh_state
    = (Returns (success_reply (PStr "Your TICKET #7 is open.") t), s') /\
    escalations (metrics s') = 1 /\
    successful_resolutions (metrics s') = 0 /\
    reports_rates s' (PFloat float_0) (PFloat float_100).
Proof.
  destruct (run_classifies_reply shouting_agent "Where is my refund?" None
              fresh_state _ _ _ eq_refl eq_refl)
    as (t & s' & Hrun & Hticket & _).
  destruct Hticket as (He & Hs & Hrep).
  { exists "Your ", "TICKET", " #7 is open.". split; [reflexivity|].
    apply (spells_letter "t" "icket" "T" "ICKET"); [right; left; reflexivity|].
    apply (spells_letter "i" "cket" "I" "CKET"); [right; left; reflexivity|].
    apply (spells_letter "c" "ket" "C" "KET"); [right; left; reflexivity|].
    apply (spells_letter "k" "et" "K" "ET"); [right; left; reflexivity|].
    apply (spells_letter "e" "t" "E" "T"); [right; left; reflexivity|].
    apply (spells_letter "t" "" "T" ""); [right; left; reflexivity|].
    constructor. }
  exists t, s'. split; [exact Hrun|]. split; [exact He|]. split; [exact Hs|].
  apply Hrep. reflexivity.
Defined.

(** The word written with the Kelvin sign counts as well, as it does for
    [str.lower]; written with capital I with dot above it does not, since
    the lowered text has the combining dot between i and c. *)
Example run_kelvin_agent :
  contains_ignoring_case "ticket" ("Your TIC" +:+ kelvin_sign +:+ "ET #7 is open.") /\
  (exists t s',
     run kelvin_agent "Where is my refund?" None fresh_state
     = (Returns (success_reply
                   (PStr ("Your TIC" +:+ kelvin_sign +:+ "ET #7 is open.")) t), s') /\
     escalations (metrics s') = 1 /\
     successful_resolutions (metrics s') = 0) /\
  lower ("T" +:+ capital_i_with_dot +:+ "CKET") = "t" +:+ small_i_with_dot +:+ "cket" /\
  ~ contains_ignoring_case "ticket" ("T" +:+ capital_i_with_dot +:+ "CKET").
Proof.
  split; [|split; [|split]].
  - apply str_in_lower_ignoring_case; reflexivity.
  - do 2 eexists. split; [reflexivity|]. split; reflexivity.
  - reflexivity.
  - intros H. apply str_in_lower_ignoring_case in H; [discriminate | reflexivity].
Qed.

(** The other case, on the sample data: a reply without the token. *)
Example run_resolving_agent :
  exists t s',
    run resolving_agent "Where is my order #12345?" None fresh_state
    = (Returns (success_reply (PStr "Your order has shipped.") t), s') /\
    successful_resolutions (metrics s') = 1 /\
    escalations (metrics s') = 0 /\
    reports_rates s' (PFloat float_100) (PFloat float_0).
Proof.
  do 2 eexists. split; [reflexivity|]. split; [reflexivity|].
  split; [reflexivity|]. apply fresh_then_resolved_reports.
Qed.

(** ** Lookups *)

Section FirstMatch.

Context {R : Type} (matches : R -> bool).

Lemma fetchone_first_match (rows : list R) (r : R) :
  fetchone matches rows = Some r <-> first_match matches rows r.
Proof.
  unfold fetchone, first_match. induction rows as [|x rows IH]; simpl.
  - split; [discriminate | intros ([|y before] & after & H & _); discriminate].
  - destruct (matches x) eqn:Hx.
    + split.
      * intros [= <-]. exists [], rows. repeat split; [assumption | intros y []].
      * intros ([|y before] & after & H & Hr & Hbefore).
        -- injection H as -> _. reflexivity.
        -- injection H as -> _. rewrite (Hbefore y) in Hx; [discriminate | now left].
    + rewrite IH. split.
      * intros (before & after & -> & Hr & Hbefore).
        exists (x :: before), after. repeat split; [assumption|].
        intros y [<- | Hy]; [assumption | now apply Hbefore].
      * intros ([|y before] & after & H & Hr & Hbefore).
        -- injection H as -> _. congruence.
        -- injection H as -> ->. exists before, after.
           repeat split; [assumption|]. intros z Hz. apply Hbefore. now right.
Qed.

Lemma fetchone_none_absent (rows : list R) :
  fetchone matches rows = None <-> absent matches rows.
Proof.
  unfold fetchone, absent. split.
  - intros H r Hr. exact (find_none matches rows H r Hr).
  - intros H. destruct (find matches rows) as [r|] eqn:Hf; [|reflexivity].
    apply find_some in Hf as [Hin Hr]. rewrite (H r Hin) in Hr. discriminate.
Qed.

Lemma present_first_match (rows : list R) :
  present matches rows <-> exists r, first_match matches rows r.
Proof.
  split.
  - intros (r & Hin & Hr).
    destruct (fetchone matches rows) as [r0|] eqn:Hf.
    + exists r0. now apply fetchone_first_match.
    + apply fetchone_none_absent in Hf. rewrite (Hf r Hin) in Hr. discriminate.
  - intros (r & before & after & -> & Hr & _). exists r.
    split; [|assumption]. apply in_or_app. right. now left.
Qed.


End FirstMatch.

Lemma text_key_eq_exact v p : text_key_eq v p = true -> v = SText p.
Proof.
  destruct v as [| | |s|]; simpl; try discriminate.
  intros H. apply String.eqb_eq in H. now subst.
Qed.

(** C4 (as amended): for every order identifier that some row of the
    orders store matches, under the comparison the database applies to the
    id column, [check_order_status] returns a record with exactly the keys
    order_id, status, order_date and total_amount, holding the columns of
    the first matching row; its order_id is the id as stored, and it is the
    queried string whenever the comparison matches stored text equal to
    the string only.  For every identifier no row matches, it returns
    exactly [{"error": "Order not found"}].  In both cases the world, the
    store included, is unchanged. *)
Theorem check_order_status_lookup key_eq order_id w :
  (present (fun r => key_eq (o_id r) order_id) (orders w) ->
   exists r d,
     first_match (fun r => key_eq (o_id r) order_id) (orders w) r /\
     check_order_status key_eq order_id w = (Returns d, w) /\
     d = {[ "order_id" := py_of_sql (o_id r);
            "status" := py_of_sql (o_status r);
            "order_date" := py_of_sql (o_order_date r);
            "total_amount" := py_of_sql (o_total_amount r) ]} /\
     dom d = {[ "order_id"; "status"; "order_date"; "total_amount" ]} /\
     ((forall v, key_eq v order_id = true -> v = SText order_id) ->
      d !! "order_id" = Some (PStr order_id))) /\
  (absent (fun r => key_eq (o_id r) order_id) (orders w) ->
   check_order_status key_eq order_id w
   = (Returns {[ "error" := PStr "Order not found" ]}, w)).
Proof.
  split.
  - intros Hp. apply present_first_match in Hp as [r Hr].
    pose proof Hr as Hf. apply fetchone_first_match in Hf.
    exists r. eexists. split; [exact Hr|].
    unfold check_order_status. unfold_monad. rewrite Hf.
    split; [reflexivity|]. split; [reflexivity|]. split.
    + rewrite !dom_insert_L, dom_singleton_L. reflexivity.
    + intros Hexact. destruct Hr as (_ & _ & _ & Hm & _).
      rewrite (Hexact _ Hm). reflexivity.
  - intros Ha. apply fetchone_none_absent in Ha.
    unfold check_order_status. unfold_monad. now rewrite Ha.
Qed.

Lemma check_order_status_lookup_witness :
  (exists d,
     check_order_status integer_key_eq "4" sample_world = (Returns d, sample_world) /\
     d !! "order_id" = Some (PInt 4) /\
     d !! "status" = Some (PStr "shipped")) /\
  (exists d,
     check_order_status text_key_eq "ORD-1002" text_keyed_world
     = (Returns d, text_keyed_world) /\
     d !! "order_id" = Some (PStr "ORD-1002")) /\
  check_order_status integer_key_eq "999" sample_world
  = (Returns {[ "error" := PStr "Order not found" ]}, sample_world).
Proof.
  split; [|split].
  - destruct (check_order_status_lookup integer_key_eq "4" sample_world)
      as [Hpresent _].
    destruct Hpresent as (r & d & Hr & Hrun & Hd & _).
    { eexists. split; [left; reflexivity | reflexivity]. }
    exists d. split; [exact Hrun|].
    apply fetchone_first_match in Hr. injection Hr as <-.
    rewrite Hd. split; reflexivity.
  - destruct (check_order_status_lookup text_key_eq "ORD-1002" text_keyed_world)
      as [Hpresent _].
    destruct Hpresent as (r & d & _ & Hrun & _ & _ & Hexact).
    { eexists. split; [right; left; reflexivity | reflexivity]. }
    exists d. split; [exact Hrun|].
    apply Hexact. intros v. apply text_key_eq_exact.
  - apply (check_order_status_lookup integer_key_eq "999" sample_world).
    intros r [<- | []]. reflexivity.
Defined.

(** C4 (as stated) fails where it asks that order_id equal the queried
    identifier: on the order the test scripts set up, the identifier "4"
    is present, and the record returned for it has order_id 4, the stored
    integer, not the string "4". *)
Lemma check_order_status_id_counterexample :
  present (fun r => integer_key_eq (o_id r) "4") (orders sample_world) /\
  exists d,
    check_order_status integer_key_eq "4" sample_world = (Returns d, sample_world) /\
    d !! "order_id" = Some (PInt 4) /\
    d !! "order_id" <> Some (PStr "4").
Proof.
  split.
  - eexists. split; [left; reflexivity | reflexivity].
  - eexists. split; [reflexivity|]. split; [reflexivity | discriminate].
Qed.

(** C5: for every product identifier present in the inventory store, the
    lookup selects the first matching row; when that row holds the
    integer quantity [q], [check_inventory] returns the record with keys
    product_id, name, in_stock, quantity and next_restock in which
    in_stock is [q > 0] and quantity is [q].  For every absent identifier
    it returns exactly [{"error": "Product not found"}].  The world is
    unchanged in both cases. *)
Theorem check_inventory_lookup key_eq product_id w :
  (present (fun r => key_eq (i_product_id r) product_id) (inventory w) ->
   exists r,
     first_match (fun r => key_eq (i_product_id r) product_id) (inventory w) r /\
     forall q,
       i_quantity r = SInt q ->
       exists d,
         check_inventory key_eq product_id w = (Returns d, w) /\
         d = {[ "product_id" := py_of_sql (i_product_id r);
                "name" := py_of_sql (i_name r);
                "in_stock" := PBool (0 <? q);
                "quantity" := PInt q;
                "next_restock" := py_of_sql (i_next_restock_date r) ]} /\
         dom d = {[ "product_id"; "name"; "in_stock"; "quantity"; "next_restock" ]} /\
         d !! "in_stock" = Some (PBool (0 <? q))) /\
  (absent (fun r => key_eq (i_product_id r) product_id) (inventory w) ->
   check_inventory key_eq product_id w
   = (Returns {[ "error" := PStr "Product not found" ]}, w)).
Proof.
  split.
  - intros Hp. apply present_first_match in Hp as [r Hr].
    pose proof Hr as Hf. apply fetchone_first_match in Hf.
    exists r. split; [exact Hr|]. intros q Hq. eexists.
    unfold check_inventory. unfold_monad. rewrite Hf, Hq. simpl.
    split; [reflexivity|]. split; [reflexivity|]. split; [|reflexivity].
    rewrite !dom_insert_L, dom_singleton_L. reflexivity.
  - intros Ha. apply fetchone_none_absent in Ha.
    unfold check_inventory. unfold_monad. now rewrite Ha.
Qed.

Lemma check_inventory_lookup_witness :
  (exists d,
     check_inventory text_key_eq "PROD-XYZ" sample_world = (Returns d, sample_world) /\
     d !! "in_stock" = Some (PBool true) /\
     d !! "quantity" = Some (PInt 15)) /\
  (exists d,
     check_inventory text_key_eq "PROD-ABC" text_keyed_world
     = (Returns d, text_keyed_world) /\
     d !! "in_stock" = Some (PBool false)) /\
  check_inventory text_key_eq "NON-EXISTENT" sample_world
  = (Returns {[ "error" := PStr "Product not found" ]}, sample_world).
Proof.
  split; [|split].
  - destruct (check_inventory_lookup text_key_eq "PROD-XYZ" sample_world)
      as [Hpresent _].
    destruct Hpresent as (r & Hr & Hq).
    { eexists. split; [left; reflexivity | reflexivity]. }
    apply fetchone_first_match in Hr. injection Hr as <-.
    destruct (Hq 15 eq_refl) as (d & Hrun & Hd & _ & Hstock).
    exists d. split; [exact Hrun|]. split; [exact Hstock|].
    rewrite Hd. reflexivity.
  - destruct (check_inventory_lookup text_key_eq "PROD-ABC" text_keyed_world)
      as [Hpresent _].
    destruct Hpresent as (r & Hr & Hq).
    { eexists. split; [right; left; reflexivity | reflexivity]. }
    apply fetchone_first_match in Hr. injection Hr as <-.
    destruct (Hq 0 eq_refl) as (d & Hrun & _ & _ & Hstock).
    exists d. split; [exact Hrun | exact Hstock].
  - apply (check_inventory_lookup text_key_eq "NON-EXISTENT" sample_world).
    intros r [<- | []]. reflexivity.
Defined.

(** A stored quantity that is not a number makes the lookup raise. *)
Example check_inventory_null_quantity :
  fst (check_inventory text_key_eq "P-1"
         (mkWorld sample_clock 0 []
            [InventoryRow (SText "P-1") (SText "Mug") SNull SNull] []))
  = Raises (Exn "TypeError"
              "'>' not supported between instances of 'NoneType' and 'int'").
Proof. reflexivity. Qed.

(** ** Return policies *)

(** C6: [check_return_policy] answers every input string with a policy
    text, never with an error: the answer for "electronics" contains
    "30-day", for "clothing" "60-day", for "furniture" "14-day", and for
    every other input it is the fixed fallback text.  (It takes no state,
    so it has no side effect.) *)
Theorem check_return_policy_total (product_type : string) :
  occurs_in "30-day" (check_return_policy "electronics") /\
  occurs_in "60-day" (check_return_policy "clothing") /\
  occurs_in "14-day" (check_return_policy "furniture") /\
  (product_type <> "electronics" -> product_type <> "clothing" ->
   product_type <> "furniture" ->
   check_return_policy product_type = "Standard 30-day return policy applies") /\
  In (check_return_policy product_type)
     ["30-day return window, must include original packaging";
      "60-day return window, must have tags attached";
      "14-day return window, assembly affects eligibility";
      "Standard 30-day return policy applies"].
Proof.
  assert (Hother :
    product_type <> "electronics" -> product_type <> "clothing" ->
    product_type <> "furniture" ->
    check_return_policy product_type = "Standard 30-day return policy applies").
  { intros H1 H2 H3. unfold check_return_policy, policies.
    rewrite !lookup_insert_ne by congruence.
    rewrite lookup_singleton_ne by congruence. reflexivity. }
  split; [apply str_in_occurs; reflexivity|].
  split; [apply str_in_occurs; reflexivity|].
  split; [apply str_in_occurs; reflexivity|].
  split; [exact Hother|].
  destruct (decide (product_type = "electronics")) as [->|H1];
    [left; reflexivity|].
  destruct (decide (product_type = "clothing")) as [->|H2];
    [right; left; reflexivity|].
  destruct (decide (product_type = "furniture")) as [->|H3];
    [right; right; left; reflexivity|].
  right; right; right; left. symmetry. now apply Hother.
Qed.

Lemma check_return_policy_total_witness :
  check_return_policy "toys" = "Standard 30-day return policy applies" /\
  check_return_policy "Electronics" = "Standard 30-day return policy applies".
Proof.
  split.
  - apply (check_return_policy_total "toys"); discriminate.
  - apply (check_return_policy_total "Electronics"); discriminate.
Defined.

(** ** Metrics *)

Lemma get_metrics_state s : snd (get_metrics s) = s.
Proof.
  unfold get_metrics. unfold_monad.
  destruct (average_response_time (metrics s)) as [|t l]; simpl;
    destruct (0 <? total_queries (metrics s)); simpl; try reflexivity;
    destruct (percentage (successful_resolutions (metrics s))
                (total_queries (metrics s))); simpl; try reflexivity;
    destruct (percentage (escalations (metrics s)) (total_queries (metrics s)));
    reflexivity.
Qed.





(** C10: [get_metrics] is read-only.  In every state it leaves the state,
    and so [total_queries], [successful_resolutions], [escalations] and
    the latency sequence, as it was; and two consecutive calls with no
    [run] in between have the same outcome: the same report twice. *)
Theorem get_metrics_read_only (s : State) :
  exists o,
    get_metrics s = (o, s) /\
    (first <- get_metrics;; second <- get_metrics;; ret (first, second))%py s
    = (match o with
       | Returns report => Returns (report, report)
       | Raises e => Raises e
       end, s) /\
    total_queries (metrics (snd (get_metrics s))) = total_queries (metrics s) /\
    successful_resolutions (metrics (snd (get_metrics s)))
    = successful_resolutions (metrics s) /\
    escalations (metrics (snd (get_metrics s))) = escalations (metrics s) /\
    average_response_time (metrics (snd (get_metrics s)))
    = average_response_time (metrics s).
Proof.
  pose proof (get_metrics_state s) as Hs.
  destruct (get_metrics s) as [o s'] eqn:Hg. simpl in Hs. subst s'.
  exists o. split; [reflexivity|]. split.
  - unfold bind, ret. rewrite Hg. destruct o as [report|e]; [|reflexivity].
    rewrite Hg. reflexivity.
  - repeat split.
Qed.

(** ** Ticket identifiers *)

Lemma digit_value_digit_char n : digit_value (digit_char n) = Some (n mod 10).
Proof.
  unfold digit_value, digit_char.
  assert (H : 0 <= n mod 10 < 10) by (apply Z.mod_pos_bound; lia).
  rewrite N_ascii_embedding by lia.
  replace ((48 <=? 48 + Z.to_N (n mod 10)) && (48 + Z.to_N (n mod 10) <=? 57))%N
    with true.
  - f_equal. lia.
  - symmetry. apply andb_true_iff. split; apply N.leb_le; lia.
Qed.

Lemma decimal_value_append acc s t :
  decimal_value acc (s +:+ t)
  = match decimal_value acc s with
    | Some v => decimal_value v t
    | None => None
    end.
Proof.
  revert acc. induction s as [|c s IH]; intros acc; simpl; [reflexivity|].
  destruct (digit_value c); [apply IH | reflexivity].
Qed.

(** Reading a zero-padded number back gives its last [width] digits. *)
Lemma decimal_value_zero_padded width : forall acc n,
  decimal_value acc (zero_padded width n)
  = Some (acc * 10 ^ Z.of_nat width + n mod 10 ^ Z.of_nat width).
Proof.
  induction width as [|w IH]; intros acc n.
  - simpl. rewrite Z.mod_1_r. f_equal. lia.
  - simpl zero_padded. rewrite decimal_value_append, IH. simpl decimal_value.
    rewrite digit_value_digit_char. f_equal.
    rewrite Nat2Z.inj_succ, Z.pow_succ_r by lia.
    rewrite (Z.rem_mul_r n 10 (10 ^ Z.of_nat w)) by lia. lia.
Qed.

Lemma days_in_month_bound y m : 28 <= days_in_month y m <= 31.
Proof.
  unfold days_in_month.
  destruct (m =? 2); [destruct (is_leap y); lia|].
  destruct ((m =? 4) || (m =? 6) || (m =? 9) || (m =? 11)); lia.
Qed.

(** A year is printed with all its digits. *)
Lemma decimal_width_covers y :
  1 <= y <= 9999 -> y mod 10 ^ Z.of_nat (decimal_width y) = y.
Proof.
  intros Hy. apply Z.mod_small. unfold decimal_width.
  destruct (Z.ltb_spec y 10); [change (10 ^ Z.of_nat 1) with 10; lia|].
  destruct (Z.ltb_spec y 100); [change (10 ^ Z.of_nat 2) with 100; lia|].
  destruct (Z.ltb_spec y 1000); [change (10 ^ Z.of_nat 3) with 1000; lia|].
  change (10 ^ Z.of_nat 4) with 10000. lia.
Qed.

(** Reading the printed timestamp back gives [timestamp_number]. *)
Lemma strftime_value d :
  valid_datetime d ->
  decimal_value 0 (strftime_YmdHMS d) = Some (timestamp_number d).
Proof.
  intros (Hy & Hm & Hd & Hh & Hmi & Hs & _).
  pose proof (days_in_month_bound (year d) (month d)) as Hdim.
  unfold strftime_YmdHMS, strftime_Y, timestamp_number.
  repeat (rewrite decimal_value_append, decimal_value_zero_padded).
  rewrite decimal_value_zero_padded.
  rewrite decimal_width_covers by lia. change (10 ^ Z.of_nat 2) with 100.
  rewrite !Z.mod_small by lia. reflexivity.
Qed.

Lemma strftime_same_second d1 d2 :
  valid_datetime d1 -> valid_datetime d2 ->
  (strftime_YmdHMS d1 = strftime_YmdHMS d2 <-> same_second d1 d2).
Proof.
  intros H1 H2. split.
  - intros Heq.
    pose proof (strftime_value d1 H1) as V1.
    pose proof (strftime_value d2 H2) as V2.
    rewrite Heq, V2 in V1. injection V1 as V.
    destruct H1 as (Hy1 & Hm1 & Hd1 & Hh1 & Hmi1 & Hs1 & _).
    destruct H2 as (Hy2 & Hm2 & Hd2 & Hh2 & Hmi2 & Hs2 & _).
    pose proof (days_in_month_bound (year d1) (month d1)).
    pose proof (days_in_month_bound (year d2) (month d2)).
    unfold timestamp_number in V. unfold same_second. lia.
  - intros (Hy & Hm & Hd & Hh & Hmi & Hs).
    unfold strftime_YmdHMS. now rewrite Hy, Hm, Hd, Hh, Hmi, Hs.
Qed.

Lemma ticket_id_same_second d1 d2 :
  valid_datetime d1 -> valid_datetime d2 ->
  (ticket_id_at d1 = ticket_id_at d2 <-> same_second d1 d2).
Proof.
  intros H1 H2. rewrite <- (strftime_same_second d1 d2 H1 H2).
  unfold ticket_id_at. split.
  - apply append_cancel_l.
  - now intros ->.
Qed.

Lemma create_support_ticket_step email issue priority w :
  create_support_ticket email issue priority w
  = (Returns ("Support ticket " +:+ ticket_id_at (clock w (ticks w)) +:+
              " created. Team will respond within 24 hours."),
     mkWorld (clock w) (S (ticks w)) (orders w) (inventory w)
       (tickets w ++
        [TicketRow (ticket_id_at (clock w (ticks w))) email issue priority "open"])).
Proof. reflexivity. Qed.

Lemma create_all_appends calls : forall w,
  exists msgs w' new,
    create_all calls w = (Returns msgs, w') /\
    tickets w' = (tickets w ++ new)%list /\
    length new = length calls /\
    length msgs = length calls /\
    Forall (fun r => t_status r = "open") new.
Proof.
  induction calls as [|[[email issue] priority] rest IH]; intros w.
  - exists [], w, []. simpl. unfold ret. rewrite app_nil_r.
    repeat split. constructor.
  - simpl create_all. unfold bind at 1. rewrite create_support_ticket_step.
    match goal with |- context [bind _ _ ?w1] =>
      destruct (IH w1) as (msgs & w' & new & Hall & Ht & Hn & Hm & Hopen)
    end.
    unfold bind. rewrite Hall. unfold ret.
    eexists _, w', (_ :: new). split; [reflexivity|].
    simpl in Ht. rewrite Ht, <- app_assoc. simpl.
    split; [reflexivity|]. split; [now rewrite Hn|]. split; [now rewrite Hm|].
    constructor; [reflexivity | assumption].
Qed.

(** C8: every call of [create_support_ticket] reads the clock, forms the
    identifier "TKT-" followed by the reading printed as
    year-month-day-hour-minute-second, appends exactly one record, with
    that identifier, the three arguments and status "open", and returns
    the confirmation text, which embeds the identifier.  N calls append N
    records, all "open".  For two valid clock readings the identifiers are
    equal exactly when the readings agree down to the second: readings
    that differ at second resolution give distinct identifiers, readings
    within the same second collide. *)
Theorem create_support_ticket_records
    (email issue priority : string) (w : World)
    (calls : list (string * string * string)) (now1 now2 : datetime) :
  (exists msg w',
     create_support_ticket email issue priority w = (Returns msg, w') /\
     msg = "Support ticket " +:+ ticket_id_at (clock w (ticks w)) +:+
           " created. Team will respond within 24 hours." /\
     occurs_in (ticket_id_at (clock w (ticks w))) msg /\
     ticket_id_at (clock w (ticks w)) = "TKT-" +:+ strftime_YmdHMS (clock w (ticks w)) /\
     tickets w'
     = (tickets w ++
        [TicketRow (ticket_id_at (clock w (ticks w))) email issue priority "open"])%list /\
     orders w' = orders w /\ inventory w' = inventory w) /\
  (exists msgs w' new,
     create_all calls w = (Returns msgs, w') /\
     tickets w' = (tickets w ++ new)%list /\
     length new = length calls /\
     length msgs = length calls /\
     Forall (fun r => t_status r = "open") new) /\
  (valid_datetime now1 -> valid_datetime now2 ->
   (ticket_id_at now1 = ticket_id_at now2 <-> same_second now1 now2)).
Proof.
  split; [|split].
  - do 2 eexists. split; [apply create_support_ticket_step|].
    split; [reflexivity|]. split; [|repeat split].
    exists "Support ticket ", " created. Team will respond within 24 hours.".
    reflexivity.
  - apply create_all_appends.
  - apply ticket_id_same_second.
Qed.

Lemma create_support_ticket_records_witness :
  ticket_id_at (sample_clock 0) = "TKT-20240115103000" /\
  ticket_id_at (sample_clock 0) <> ticket_id_at (sample_clock 1) /\
  ticket_id_at (Datetime 2024 1 15 10 30 0 0)
  = ticket_id_at (Datetime 2024 1 15 10 30 0 999999).
Proof.
  assert (Hvalid : forall n us,
    0 <= n < 60 -> 0 <= us < 1000000 ->
    valid_datetime (Datetime 2024 1 15 10 30 n us)).
  { intros n us Hn Hus. unfold valid_datetime. simpl.
    change (days_in_month 2024 1) with 31. lia. }
  split; [reflexivity|]. split.
  - intros Heq.
    apply (create_support_ticket_records "" "" "" sample_world []
             (sample_clock 0) (sample_clock 1)) in Heq.
    + destruct Heq as (_ & _ & _ & _ & _ & Hs). discriminate.
    + apply (Hvalid 0 0); lia.
    + apply (Hvalid 1 0); lia.
  - apply (create_support_ticket_records "" "" "" sample_world []
             (Datetime 2024 1 15 10 30 0 0) (Datetime 2024 1 15 10 30 0 999999)).
    + apply (Hvalid 0 0); lia.
    + apply (Hvalid 0 999999); lia.
    + repeat split.
Defined.

(** Three tickets in a row on the sample data. *)
Example create_all_three :
  map t_ticket_id
      (tickets (snd (create_all [("a@example.com", "late parcel", "low");
                                 ("b@example.com", "refund", "high");
                                 ("c@example.com", "damaged item", "urgent")]
                       sample_world)))
  = ["TKT-20240115103000"; "TKT-20240115103001"; "TKT-20240115103002"].
Proof. reflexivity. Qed.

(** ** Reachable states and checks of the float model *)

(** After any sequence of invocations on a fresh agent the counters are in
    range, so [get_metrics] returns its report. *)
Lemma get_metrics_returns_after_runs agent queries w :
  exists replies s',
    run_all agent queries (mkState MonitoredAgent_init w) = (Returns replies, s') /\
    counters_in_range (metrics s') /\
    get_metrics s' = (Returns (metrics_report (metrics s')), s').
Proof.
  destruct (run_all_accounting agent queries (mkState MonitoredAgent_init w))
    as (replies & s' & Hall & _ & Htot & Hsum & Hs & He).
  simpl in *. exists replies, s'.
  assert (0 <= count_errors replies) by (unfold count_errors; lia).
  assert (Hr : counters_in_range (metrics s')) by (unfold counters_in_range; lia).
  split; [assumption|]. split; [assumption|].
  apply get_metrics_returns. now left.
Qed.

(** [round_half_even] picks an integer at distance at most one half. *)
Lemma round_half_even_nearest num den :
  0 < den -> 2 * Z.abs (round_half_even num den * den - num) <= den.
Proof.
  intros Hden. unfold round_half_even.
  pose proof (Z.div_mod num den ltac:(lia)) as Hdm.
  pose proof (Z.mod_pos_bound num den Hden) as Hr.
  destruct (Z.compare_spec (2 * (num mod den)) den) as [Heq|Hlt|Hgt].
  - destruct (Z.even (num / den)); nia.
  - nia.
  - nia.
Qed.

(** The overflow test agrees with the rounded quotient at the threshold. *)
Example int_quot_overflow_threshold :
  int_quot (2 ^ 1024 - 2 ^ 970) 1 = S754_infinity false /\
  int_quot (2 ^ 1024 - 2 ^ 970 - 1) 1 = S754_finite false (2 ^ 53 - 1) 971 /\
  int_truediv (3 * (2 ^ 1024 - 2 ^ 970)) 3
  = Raises (Exn "OverflowError" "integer division result too large for a float") /\
  int_truediv 1 0 = Raises (Exn "ZeroDivisionError" "division by zero") /\
  int_truediv 0 (-5) = Returns (S754_zero true).
Proof. vm_compute. repeat split. Qed.

(** [round(2.675, 2) == 2.67], [round(0.125, 2) == 0.12],
    [round(0.375, 2) == 0.38], [round(-0.001, 2) == -0.0] and
    [round(1e16 + 2.0, 2) == 1e16 + 2.0]. *)
Example py_round_values :
  py_round (int_quot 2675 1000) 2 = int_quot 267 100 /\
  py_round (int_quot 125 1000) 2 = int_quot 12 100 /\
  py_round (int_quot 375 1000) 2 = int_quot 38 100 /\
  py_round (int_quot (-1) 1000) 2 = S754_zero true /\
  py_round (float_of_int (10 ^ 16 + 2)) 2 = float_of_int (10 ^ 16 + 2).
Proof. vm_compute. repeat split. Qed.

(** [1 / 3 * 100] is the float [33.33333333333333]; the elapsed time from
    23:59:59 on 28 February 2024 to 00:00:01.5 on 1 March is [86402.5]. *)
Example rate_and_elapsed_values :
  percentage 1 3 = Returns (S754_finite false 4691249611844266 (-47)) /\
  total_seconds (datetime_sub (Datetime 2024 3 1 0 0 1 500000)
                              (Datetime 2024 2 28 23 59 59 0))
  = S754_finite false 5937534588682240 (-36).
Proof. vm_compute. split; reflexivity. Qed.

(** * Further properties of the code *)

(** ** [run]: results that are not a dict with a text output *)

(** X1: when the dispatcher returns a result without an "output" key, or
    with an output that is not a string, [run] answers with the error
    reply carrying the [KeyError] or [AttributeError] text (for an output
    of [bytes], which have a [lower] method, the [TypeError] text of the
    search that follows); the query is counted and, unlike on the
    dispatcher-fault path, the elapsed time has already been appended to
    the latency sequence, while neither outcome counter changes. *)
Theorem run_malformed_result agent query customer_id s result w' :
  agent query (after_now (world s)) = (Returns result, w') ->
  (forall reply, result !! "output" <> Some (PStr reply)) ->
  exists e s',
    run agent query customer_id s = (Returns (error_reply e), s') /\
    (result !! "output" = None -> e = Exn "KeyError" "'output'") /\
    (forall v, result !! "output" = Some v -> (forall b, v <> PBytes b) ->
       e = Exn "AttributeError"
             ("'" +:+ type_name v +:+ "' object has no attribute 'lower'")) /\
    (forall b, result !! "output" = Some (PBytes b) ->
       e = Exn "TypeError" "a bytes-like object is required, not 'str'") /\
    total_queries (metrics s') = total_queries (metrics s) + 1 /\
    successful_resolutions (metrics s') = successful_resolutions (metrics s) /\
    escalations (metrics s') = escalations (metrics s) /\
    average_response_time (metrics s')
    = (average_response_time (metrics s) ++
       [total_seconds (datetime_sub (clock w' (ticks w'))
                                    (clock (world s) (ticks (world s))))])%list.
Proof.
  intros H Hbad.
  rewrite (run_dispatcher_returns _ _ customer_id _ _ _ H).
  unfold getitem. destruct (result !! "output") as [v|] eqn:Hout.
  - destruct v as [|b|n|x|reply|b]; try (now destruct (Hbad reply));
      (do 2 eexists; split; [reflexivity|];
       split; [discriminate|]; split; [|split; [|repeat split]]);
      try (now intros v' [= <-] _); try discriminate.
    + intros v' [= <-] Hv. now destruct (Hv b).
    + reflexivity.
  - do 2 eexists. split; [reflexivity|].
    split; [reflexivity|]. split; [discriminate|]. split; [discriminate|].
    repeat split.
Qed.

Lemma run_malformed_result_witness :
  exists s',
    run (fun _ => ret {[ "input" := PStr "hello"; "output" := PNone ]}) "hello" None
        fresh_state
    = (Returns (error_reply
                  (Exn "AttributeError"
                     "'NoneType' object has no attribute 'lower'")), s') /\
    total_queries (metrics s') = 1 /\
    length (average_response_time (metrics s')) = 1%nat.
Proof.
  destruct (run_malformed_result
              (fun _ => ret {[ "input" := PStr "hello"; "output" := PNone ]})
              "hello" None fresh_state _ _ eq_refl)
    as (e & s' & Hrun & _ & Hattr & _ & Ht & _ & _ & Hl).
  { intros reply. discriminate. }
  rewrite (Hattr PNone eq_refl ltac:(discriminate)) in Hrun.
  exists s'. split; [exact Hrun|]. split; [exact Ht|]. now rewrite Hl.
Defined.

(** An output of [bytes]: lowering succeeds and the search raises. *)
Example run_bytes_output :
  fst (run (fun _ => ret {[ "input" := PStr "hello"; "output" := PBytes "TICKET" ]})
           "hello" None fresh_state)
  = Returns (error_reply
               (Exn "TypeError" "a bytes-like object is required, not 'str'")).
Proof. reflexivity. Qed.

(** ** [run]: the latency sequence *)

Lemma run_step_latency agent query customer_id s :
  exists d s',
    run agent query customer_id s = (Returns d, s') /\
    total_queries (metrics s') = total_queries (metrics s) + 1 /\
    successful_resolutions (metrics s) + escalations (metrics s)
    <= successful_resolutions (metrics s') + escalations (metrics s') /\
    successful_resolutions (metrics s') + escalations (metrics s')
      - (successful_resolutions (metrics s) + escalations (metrics s))
    <= Z.of_nat (length (average_response_time (metrics s')))
       - Z.of_nat (length (average_response_time (metrics s))) <= 1.
Proof.
  destruct (agent query (after_now (world s))) as [[result|e] w'] eqn:H.
  - rewrite (run_dispatcher_returns _ _ customer_id _ _ _ H).
    destruct (getitem result "output") as [output|e];
      [destruct (mentions_ticket output) as [escalated|e];
       [destruct escalated|]|];
      (do 2 eexists; split; [reflexivity|]; simpl;
       rewrite length_app; simpl; lia).
  - rewrite (run_dispatcher_raises _ _ customer_id _ _ _ H).
    do 2 eexists. split; [reflexivity|]. simpl. lia.
Qed.

Lemma run_all_latency agent queries : forall s,
  exists replies s',
    run_all agent queries s = (Returns replies, s') /\
    successful_resolutions (metrics s') + escalations (metrics s')
      - (successful_resolutions (metrics s) + escalations (metrics s))
    <= Z.of_nat (length (average_response_time (metrics s')))
       - Z.of_nat (length (average_response_time (metrics s)))
    <= total_queries (metrics s') - total_queries (metrics s).
Proof.
  induction queries as [|q rest IH]; intros s.
  - exists [], s. split; [reflexivity|]. lia.
  - destruct (run_step_latency agent q None s) as (d & s1 & Hrun & Ht & Hmono & Hl).
    destruct (IH s1) as (replies & s2 & Hall & Hb).
    exists (d :: replies), s2. simpl run_all. unfold bind at 1. rewrite Hrun.
    unfold bind at 1. rewrite Hall. split; [reflexivity|]. lia.
Qed.

(** X2: on a fresh [MonitoredAgent], after any sequence of invocations,
    the latency sequence holds one entry for every invocation whose
    dispatcher call returned: at least as many as were counted resolved or
    escalated, and at most [total_queries]. *)
Theorem run_all_latency_bounds
    (agent : string -> M World pydict) (queries : list string) (w : World) :
  exists replies s',
    run_all agent queries (mkState MonitoredAgent_init w) = (Returns replies, s') /\
    successful_resolutions (metrics s') + escalations (metrics s')
    <= Z.of_nat (length (average_response_time (metrics s')))
    <= total_queries (metrics s').
Proof.
  destruct (run_all_latency agent queries (mkState MonitoredAgent_init w))
    as (replies & s' & Hall & Hb).
  exists replies, s'. split; [exact Hall|]. simpl in Hb. lia.
Qed.

(** ** [run]: what it leaves alone *)

(** X3: [run] itself writes to no database: on every path the orders, the
    inventory and the tickets afterwards are those the dispatcher call left
    behind, and the clock has been read once before the call and, when the
    call returned, once after it. *)
Theorem run_leaves_databases agent query customer_id s :
  let after_dispatch := agent query (after_now (world s)) in
  let s' := snd (run agent query customer_id s) in
  orders (world s') = orders (snd after_dispatch) /\
  inventory (world s') = inventory (snd after_dispatch) /\
  tickets (world s') = tickets (snd after_dispatch) /\
  ticks (world s')
  = match fst after_dispatch with
    | Returns _ => S (ticks (snd after_dispatch))
    | Raises _ => ticks (snd after_dispatch)
    end.
Proof.
  simpl. destruct (agent query (after_now (world s))) as [[result|e] w'] eqn:H.
  - rewrite (run_dispatcher_returns _ _ customer_id _ _ _ H).
    destruct (getitem result "output") as [output|e];
      [destruct (mentions_ticket output) as [escalated|e]|]; repeat split.
  - rewrite (run_dispatcher_raises _ _ customer_id _ _ _ H). repeat split.
Qed.

(** X4: when the dispatcher returns a text output, the reply of [run]
    carries that output unchanged as response, and its response_time is
    the elapsed time between the two clock readings, the very value
    appended last to the latency sequence. *)
Theorem run_success_reply_time agent query customer_id s result reply w' :
  agent query (after_now (world s)) = (Returns result, w') ->
  result !! "output" = Some (PStr reply) ->
  exists d s',
    run agent query customer_id s = (Returns d, s') /\
    d !! "status" = Some (PStr "success") /\
    d !! "response" = Some (PStr reply) /\
    d !! "response_time"
    = Some (PFloat (total_seconds
                      (datetime_sub (clock w' (ticks w'))
                                    (clock (world s) (ticks (world s)))))) /\
    average_response_time (metrics s')
    = (average_response_time (metrics s) ++
       [total_seconds (datetime_sub (clock w' (ticks w'))
                                    (clock (world s) (ticks (world s))))])%list.
Proof.
  intros H Hout.
  rewrite (run_dispatcher_returns _ _ customer_id _ _ _ H).
  unfold getitem. rewrite Hout, mentions_ticket_text.
  destruct (str_in "ticket" (lower reply)); do 2 eexists;
    (split; [reflexivity|]); repeat split.
Qed.

Lemma run_success_reply_time_witness :
  exists d s',
    run resolving_agent "Where is my order #12345?" None fresh_state = (Returns d, s') /\
    d !! "response" = Some (PStr "Your order has shipped.") /\
    d !! "response_time" = Some (PFloat (float_of_int 1)) /\
    average_response_time (metrics s') = [float_of_int 1].
Proof.
  destruct (run_success_reply_time resolving_agent "Where is my order #12345?"
              None fresh_state _ _ _ eq_refl eq_refl)
    as (d & s' & Hrun & _ & Hr & Ht & Hl).
  exists d, s'. split; [exact Hrun|]. split; [exact Hr|].
  split; [rewrite Ht | rewrite Hl]; vm_compute; reflexivity.
Defined.

(** ** [run] with the replies the tools produce *)

Lemma occurs_in_trans a b c : occurs_in a b -> occurs_in b c -> occurs_in a c.
Proof.
  intros (p1 & q1 & ->) (p2 & q2 & ->).
  exists (p2 +:+ p1), (q1 +:+ q2). now rewrite !append_assoc.
Qed.

Lemma occurs_in_ignoring_case text :
  occurs_in "ticket" text -> contains_ignoring_case "ticket" text.
Proof.
  intros (before & after & ->). exists before, "ticket", after.
  split; [reflexivity | now apply spells_itself].
Qed.

(** X5: the confirmation text of [create_support_ticket], whatever its
    arguments and the time of the call, makes [run] count an escalation:
    whenever the dispatcher's output contains that text,
    [escalations] is incremented and [successful_resolutions] is not. *)
Theorem run_counts_ticket_confirmation
    agent query customer_id s result reply w' email issue priority w0 msg w0' :
  create_support_ticket email issue priority w0 = (Returns msg, w0') ->
  agent query (after_now (world s)) = (Returns result, w') ->
  result !! "output" = Some (PStr reply) ->
  occurs_in msg reply ->
  exists d s',
    run agent query customer_id s = (Returns d, s') /\
    d !! "status" = Some (PStr "success") /\
    escalations (metrics s') = escalations (metrics s) + 1 /\
    successful_resolutions (metrics s') = successful_resolutions (metrics s).
Proof.
  intros Hmsg H Hout Hocc.
  rewrite create_support_ticket_step in Hmsg. injection Hmsg as <- _.
  assert (Hin : str_in "ticket" (lower reply) = true).
  { apply str_in_lower_ignoring_case; [reflexivity|]. apply occurs_in_ignoring_case.
    eapply occurs_in_trans; [|exact Hocc].
    exists "Support ", (" " +:+ ticket_id_at (clock w0 (ticks w0)) +:+
                        " created. Team will respond within 24 hours.").
    reflexivity. }
  rewrite (run_dispatcher_returns _ _ customer_id _ _ _ H).
  unfold getitem. rewrite Hout, mentions_ticket_text, Hin.
  do 2 eexists. split; [reflexivity|]. repeat split.
Qed.

Lemma run_counts_ticket_confirmation_witness :
  exists d s',
    run escalating_agent "My $800 refund hasn't arrived and I'm furious!" None
        fresh_state = (Returns d, s') /\
    escalations (metrics s') = 1 /\
    successful_resolutions (metrics s') = 0.
Proof.
  destruct (run_counts_ticket_confirmation escalating_agent
              "My $800 refund hasn't arrived and I'm furious!" None fresh_state
              _ _ _ "customer@example.com"
              "My $800 refund hasn't arrived and I'm furious!" "high"
              (after_now sample_world) _ _ eq_refl eq_refl eq_refl)
    as (d & s' & Hrun & _ & He & Hs).
  { exists "", "". now rewrite append_empty_r. }
  exists d, s'. repeat split; assumption.
Defined.

(** X6: a dispatcher output that is exactly the text [check_return_policy]
    returns, for any product type, makes [run] count a resolution:
    [successful_resolutions] is incremented and [escalations] is not. *)
Theorem run_counts_policy_text
    agent query customer_id s result w' product_type :
  agent query (after_now (world s)) = (Returns result, w') ->
  result !! "output" = Some (PStr (check_return_policy product_type)) ->
  exists d s',
    run agent query customer_id s = (Returns d, s') /\
    d !! "status" = Some (PStr "success") /\
    successful_resolutions (metrics s') = successful_resolutions (metrics s) + 1 /\
    escalations (metrics s') = escalations (metrics s).
Proof.
  intros H Hout.
  assert (Hin : str_in "ticket" (lower (check_return_policy product_type)) = false).
  { unfold check_return_policy, policies.
    destruct (decide (product_type = "electronics")) as [->|H1]; [reflexivity|].
    destruct (decide (product_type = "clothing")) as [->|H2]; [reflexivity|].
    destruct (decide (product_type = "furniture")) as [->|H3]; [reflexivity|].
    rewrite !lookup_insert_ne by congruence.
    rewrite lookup_singleton_ne by congruence. reflexivity. }
  rewrite (run_dispatcher_returns _ _ customer_id _ _ _ H).
  unfold getitem. rewrite Hout, mentions_ticket_text, Hin.
  do 2 eexists. split; [reflexivity|]. repeat split.
Qed.

Lemma run_counts_policy_text_witness :
  exists d s',
    run (fun q => ret {[ "output" := PStr (check_return_policy "electronics") ]})
        "Can I return electronics after 45 days?" None fresh_state
    = (Returns d, s') /\
    successful_resolutions (metrics s') = 1 /\
    escalations (metrics s') = 0.
Proof.
  destruct (run_counts_policy_text
              (fun q => ret {[ "output" := PStr (check_return_policy "electronics") ]})
              "Can I return electronics after 45 days?" None fresh_state
              _ _ "electronics" eq_refl)
    as (d & s' & Hrun & _ & Hs & He).
  { apply lookup_singleton_eq. }
  exists d, s'. repeat split; assumption.
Defined.

(** ** [get_metrics]: exact rates *)

Lemma div_core_same (p : positive) :
  SFdiv_core_binary prec emax (Zpos p) 0 (Zpos p) 0 = (2 ^ 53, -53, loc_Exact).
Proof.
  unfold SFdiv_core_binary.
  rewrite !Z.add_0_r, !Z.sub_diag.
  change (Z.min (fexp prec emax 0) 0) with (-53).
  change (0 - -53) with 53.
  cbv beta iota zeta.
  rewrite Z.shiftl_mul_pow2 by lia.
  assert (Hq : Z.div_eucl (Z.pos p * 2 ^ 53) (Z.pos p) = (2 ^ 53, 0)).
  { pose proof (Z.div_mul (2 ^ 53) (Z.pos p) ltac:(lia)) as Hd.
    pose proof (Z.mod_mul (2 ^ 53) (Z.pos p) ltac:(lia)) as Hm.
    rewrite Z.mul_comm. unfold Z.div in Hd. unfold Z.modulo in Hm.
    destruct (Z.div_eucl (2 ^ 53 * Z.pos p) (Z.pos p)) as [q r].
    simpl in Hd, Hm. now subst. }
  rewrite Hq. unfold new_location, new_location_even, new_location_odd.
  destruct (Z.even (Z.pos p)); reflexivity.
Qed.

(** [n / n] is the float [1.0], and [0 / n] the float [0.0], for every
    positive int [n]. *)
Lemma int_quot_same (n : Z) : 0 < n -> int_quot n n = float_1.
Proof.
  intros Hn. destruct n as [|p|p]; try lia.
  unfold int_quot, float_div, exact_int, SFdiv.
  rewrite div_core_same. vm_compute. reflexivity.
Qed.

Lemma int_quot_zero (n : Z) : 0 < n -> int_quot 0 n = float_0.
Proof. intros Hn. destruct n as [|p|p]; try lia. reflexivity. Qed.

Lemma reported_rate_all n : 0 < n -> reported_rate n n = PFloat float_100.
Proof.
  intros Hn. unfold reported_rate.
  destruct (Z.ltb_spec 0 n); [|lia]. rewrite int_quot_same by assumption.
  vm_compute. reflexivity.
Qed.

Lemma reported_rate_none n : 0 < n -> reported_rate 0 n = PFloat float_0.
Proof.
  intros Hn. unfold reported_rate.
  destruct (Z.ltb_spec 0 n); [|lia]. rewrite int_quot_zero by assumption.
  vm_compute. reflexivity.
Qed.

(** X7: whatever the number of queries counted, as long as there is one:
    when all of them were counted as resolved, [get_metrics] reports
    resolution_rate exactly 100.0 and escalation_rate exactly 0.0, and
    when all of them were counted as escalated it reports 0.0 and
    100.0. *)
Theorem get_metrics_extreme_rates (s : State) :
  0 < total_queries (metrics s) ->
  (successful_resolutions (metrics s) = total_queries (metrics s) ->
   escalations (metrics s) = 0 ->
   reports_rates s (PFloat float_100) (PFloat float_0)) /\
  (escalations (metrics s) = total_queries (metrics s) ->
   successful_resolutions (metrics s) = 0 ->
   reports_rates s (PFloat float_0) (PFloat float_100)).
Proof.
  intros Hpos. split; intros H1 H2;
    (assert (Hr : counters_in_range (metrics s))
       by (unfold counters_in_range; lia));
    pose proof (reports_rates_in_range s Hr) as R;
    rewrite H1, H2 in R;
    rewrite (reported_rate_all _ Hpos), (reported_rate_none _ Hpos) in R;
    exact R.
Qed.

Lemma get_metrics_extreme_rates_witness :
  reports_rates (mkState (mkMetrics 7 7 0 []) sample_world)
                (PFloat float_100) (PFloat float_0) /\
  reports_rates (mkState (mkMetrics 3 0 3 []) sample_world)
                (PFloat float_0) (PFloat float_100).
Proof.
  split.
  - apply (get_metrics_extreme_rates (mkState (mkMetrics 7 7 0 []) sample_world));
      simpl; [lia | reflexivity | reflexivity].
  - apply (get_metrics_extreme_rates (mkState (mkMetrics 3 0 3 []) sample_world));
      simpl; [lia | reflexivity | reflexivity].
Defined.

(** X8: on a fresh [MonitoredAgent], after any sequence of invocations,
    whatever their outcomes, [get_metrics] returns a report (it raises
    neither [ZeroDivisionError] nor [OverflowError]) and leaves the state
    unchanged; the report's total_queries is the number of invocations,
    and each rate is the int 0 when there were none and otherwise the
    float [count / total_queries * 100]. *)
Theorem get_metrics_after_runs
    (agent : string -> M World pydict) (queries : list string) (w : World) :
  exists replies s' report,
    run_all agent queries (mkState MonitoredAgent_init w) = (Returns replies, s') /\
    get_metrics s' = (Returns report, s') /\
    report !! "total_queries" = Some (PInt (Z.of_nat (length queries))) /\
    report !! "resolution_rate"
    = Some (reported_rate (successful_resolutions (metrics s'))
                          (Z.of_nat (length queries))) /\
    report !! "escalation_rate"
    = Some (reported_rate (escalations (metrics s')) (Z.of_nat (length queries))).
Proof.
  destruct (run_all_accounting agent queries (mkState MonitoredAgent_init w))
    as (replies & s' & Hall & _ & Htot & Hsum & Hs & He).
  simpl in *. exists replies, s', (metrics_report (metrics s')).
  assert (0 <= count_errors replies) by (unfold count_errors; lia).
  split; [exact Hall|]. split.
  - apply get_metrics_returns. left. unfold counters_in_range. lia.
  - assert (Ht : total_queries (metrics s') = Z.of_nat (length queries)) by lia.
    rewrite <- Ht. repeat split.
Qed.

(** ** The lookups: every outcome *)




(** A quantity stored as a BLOB comes back as [bytes], which cannot be
    compared with 0. *)
Example check_inventory_blob_quantity :
  fst (check_inventory text_key_eq "P-3"
         (mkWorld sample_clock 0 []
            [InventoryRow (SText "P-3") (SText "Lamp") (SBlob "7") SNull] []))
  = Raises (Exn "TypeError"
              "'>' not supported between instances of 'bytes' and 'int'").
Proof. reflexivity. Qed.


(** ** Lookups and ticket creation together *)

Lemma check_inventory_state key_eq product_id w :
  snd (check_inventory key_eq product_id w) = w.
Proof.
  unfold check_inventory. unfold_monad.
  destruct (fetchone _ (inventory w)) as [r|]; [|reflexivity].
  now destruct (py_gt_zero (py_of_sql (i_quantity r))).
Qed.

Lemma create_all_frame calls : forall w,
  orders (snd (create_all calls w)) = orders w /\
  inventory (snd (create_all calls w)) = inventory w /\
  clock (snd (create_all calls w)) = clock w /\
  ticks (snd (create_all calls w)) = (ticks w + length calls)%nat.
Proof.
  induction calls as [|[[email issue] priority] rest IH]; intros w.
  - simpl. repeat split. lia.
  - assert (Hsnd : exists w1,
              snd (create_all ((email, issue, priority) :: rest) w)
              = snd (create_all rest w1) /\
              orders w1 = orders w /\ inventory w1 = inventory w /\
              clock w1 = clock w /\ ticks w1 = S (ticks w)).
    { exists (snd (create_support_ticket email issue priority w)).
      simpl create_all. unfold bind at 1. rewrite create_support_ticket_step.
      split; [|repeat split]. unfold bind. simpl.
      match goal with |- context [create_all rest ?w1] =>
        destruct (create_all rest w1) as [[msgs|e] w']
      end; reflexivity. }
    destruct Hsnd as (w1 & -> & Ho & Hi & Hc & Ht).
    destruct (IH w1) as (Ho1 & Hi1 & Hc1 & Ht1).
    rewrite Ho1, Hi1, Hc1, Ht1, Ho, Hi, Hc, Ht. simpl. repeat split. lia.
Qed.

(** X11: creating tickets, however many, does not change what the two
    lookups answer for any identifier; and a lookup made first does not
    change the ticket created afterwards. *)
Theorem lookups_unaffected_by_tickets
    orders_key_eq inventory_key_eq ident calls email issue priority w :
  fst (check_order_status orders_key_eq ident (snd (create_all calls w)))
  = fst (check_order_status orders_key_eq ident w) /\
  fst (check_inventory inventory_key_eq ident (snd (create_all calls w)))
  = fst (check_inventory inventory_key_eq ident w) /\
  create_support_ticket email issue priority
    (snd (check_order_status orders_key_eq ident w))
  = create_support_ticket email issue priority w /\
  create_support_ticket email issue priority
    (snd (check_inventory inventory_key_eq ident w))
  = create_support_ticket email issue priority w.
Proof.
  destruct (create_all_frame calls w) as (Ho & Hi & _ & _).
  pose proof (check_inventory_state inventory_key_eq ident w) as Hw.
  split; [|split; [|split]].
  - unfold check_order_status. unfold_monad. rewrite Ho.
    now destruct (fetchone _ (orders w)).
  - unfold check_inventory. unfold_monad. rewrite Hi.
    destruct (fetchone _ (inventory w)) as [r|]; [|reflexivity].
    now destruct (py_gt_zero (py_of_sql (i_quantity r))).
  - unfold check_order_status. unfold_monad.
    now destruct (fetchone _ (orders w)).
  - now rewrite Hw.
Qed.

(** ** The shape of a ticket identifier *)

Lemma string_length_append (a b : string) :
  String.length (a +:+ b) = (String.length a + String.length b)%nat.
Proof. induction a as [|c a IH]; simpl; [reflexivity | now rewrite IH]. Qed.

Lemma zero_padded_length width : forall n,
  String.length (zero_padded width n) = width.
Proof.
  induction width as [|w IH]; intros n; simpl; [reflexivity|].
  rewrite string_length_append, IH. simpl. lia.
Qed.

(** X12: for every valid clock reading the ticket identifier is "TKT-"
    followed by decimal digits that read back as the number
    year-month-day-hour-minute-second of the reading: the digits of the
    year and ten more.  From the year 1000 on these are exactly 14 digits,
    18 characters in all; for an earlier year the identifier is
    shorter. *)
Theorem ticket_id_format (now : datetime) :
  valid_datetime now ->
  exists digits,
    ticket_id_at now = "TKT-" +:+ digits /\
    decimal_value 0 digits = Some (timestamp_number now) /\
    String.length digits = (decimal_width (year now) + 10)%nat /\
    (1000 <= year now ->
     String.length digits = 14%nat /\ String.length (ticket_id_at now) = 18%nat) /\
    (year now < 1000 -> (String.length (ticket_id_at now) < 18)%nat).
Proof.
  intros Hv. exists (strftime_YmdHMS now).
  assert (Hlen : String.length (strftime_YmdHMS now)
                 = (decimal_width (year now) + 10)%nat).
  { unfold strftime_YmdHMS, strftime_Y.
    rewrite !string_length_append, !zero_padded_length. reflexivity. }
  assert (Hid : String.length (ticket_id_at now)
                = (4 + String.length (strftime_YmdHMS now))%nat).
  { unfold ticket_id_at. now rewrite string_length_append. }
  split; [reflexivity|]. split; [now apply strftime_value|].
  split; [exact Hlen|]. rewrite Hid, Hlen. unfold decimal_width.
  destruct Hv as (Hy & _). split; intros Hyear.
  - destruct (Z.ltb_spec (year now) 10); [lia|].
    destruct (Z.ltb_spec (year now) 100); [lia|].
    destruct (Z.ltb_spec (year now) 1000); [lia|]. split; reflexivity.
  - destruct (Z.ltb_spec (year now) 10); [simpl; lia|].
    destruct (Z.ltb_spec (year now) 100); [simpl; lia|].
    destruct (Z.ltb_spec (year now) 1000); [simpl; lia | lia].
Qed.

Lemma ticket_id_format_witness :
  (String.length (ticket_id_at (Datetime 2024 1 5 9 3 7 123456)) = 18%nat /\
   exists digits,
     ticket_id_at (Datetime 2024 1 5 9 3 7 123456) = "TKT-" +:+ digits /\
     decimal_value 0 digits = Some 20240105090307) /\
  (String.length (ticket_id_at (Datetime 5 1 5 9 3 7 0)) < 18)%nat.
Proof.
  split.
  - destruct (ticket_id_format (Datetime 2024 1 5 9 3 7 123456))
      as (digits & Hid & Hval & _ & Hfour & _).
    { unfold valid_datetime. simpl. change (days_in_month 2024 1) with 31. lia. }
    split; [apply Hfour; simpl; lia|].
    exists digits. split; [exact Hid | exact Hval].
  - destruct (ticket_id_format (Datetime 5 1 5 9 3 7 0))
      as (digits & _ & _ & _ & _ & Hshort).
    { unfold valid_datetime. simpl. change (days_in_month 5 1) with 31. lia. }
    apply Hshort. simpl. lia.
Defined.

(** The identifiers of 5 January of the years 5 and 2024, at 09:03:07. *)
Example ticket_id_values :
  ticket_id_at (Datetime 5 1 5 9 3 7 0) = "TKT-50105090307" /\
  ticket_id_at (Datetime 999 1 5 9 3 7 0) = "TKT-9990105090307" /\
  ticket_id_at (Datetime 2024 1 5 9 3 7 0) = "TKT-20240105090307".
Proof. repeat split. Qed.

(** ** [test_agent] *)

Lemma run_reply_shape agent query customer_id s :
  exists d s',
    run agent query customer_id s = (Returns d, s') /\
    total_queries (metrics s') = total_queries (metrics s) + 1 /\
    ((exists e, d = error_reply e) \/
     (exists reply t, d = success_reply (PStr reply) t)).
Proof.
  destruct (agent query (after_now (world s))) as [[result|e] w'] eqn:H.
  - rewrite (run_dispatcher_returns _ _ customer_id _ _ _ H).
    destruct (getitem result "output") as [output|e].
    + destruct output as [|b|n|x|reply|b];
        try (do 2 eexists; split; [reflexivity|]; split; [reflexivity|];
             left; eexists; reflexivity).
      rewrite mentions_ticket_text.
      destruct (str_in "ticket" (lower reply));
        (do 2 eexists; split; [reflexivity|]; split; [reflexivity|];
         right; do 2 eexists; reflexivity).
    + do 2 eexists. split; [reflexivity|]. split; [reflexivity|].
      left. eexists. reflexivity.
  - rewrite (run_dispatcher_raises _ _ customer_id _ _ _ H).
    do 2 eexists. split; [reflexivity|]. split; [reflexivity|].
    left. eexists. reflexivity.
Qed.

Lemma test_agent_body_entry agent test q s :
  test !! "query" = Some q ->
  exists entry s',
    test_agent_body agent test s = (Returns entry, s') /\
    total_queries (metrics s') = total_queries (metrics s) + 1 /\
    entry_for q entry.
Proof.
  intros Hq.
  destruct (run_reply_shape agent q None s) as (d & s' & Hrun & Ht & Hshape).
  unfold test_agent_body, case_getitem. rewrite Hq.
  unfold bind at 1. unfold lift_outcome at 1. unfold bind at 1. rewrite Hrun.
  destruct Hshape as [[e ->] | (reply & t & ->)].
  - eexists _, s'. split; [reflexivity|]. split; [exact Ht|].
    split; [|split; [reflexivity|left; repeat split]].
    unfold dict_get. simpl. rewrite !dom_insert_L, dom_singleton_L. reflexivity.
  - eexists _, s'. split; [reflexivity|]. split; [exact Ht|].
    split; [|split; [reflexivity|right; split; [reflexivity|]]].
    + unfold dict_get. simpl. rewrite !dom_insert_L, dom_singleton_L. reflexivity.
    + exists reply, t. split; reflexivity.
Qed.

Lemma test_agent_from_entries agent test_cases : forall results s,
  Forall (fun test => is_Some (test !! "query")) test_cases ->
  exists entries s',
    test_agent_from agent results test_cases s = (Returns (results ++ entries)%list, s') /\
    total_queries (metrics s')
    = total_queries (metrics s) + Z.of_nat (length test_cases) /\
    Forall2 (fun test entry => exists q, test !! "query" = Some q /\ entry_for q entry)
            test_cases entries.
Proof.
  induction test_cases as [|test rest IH]; intros results s Hall.
  - exists [], s. simpl. rewrite app_nil_r. repeat split; [lia | constructor].
  - inversion Hall as [|? ? [q Hq] Hrest]; subst.
    destruct (test_agent_body_entry agent test q s Hq) as (entry & s1 & Hbody & Ht & He).
    destruct (IH (results ++ [entry])%list s1 Hrest) as (entries & s2 & Hfrom & Ht2 & Hf).
    exists (entry :: entries), s2. simpl test_agent_from.
    unfold bind. rewrite Hbody, Hfrom. rewrite <- app_assoc. simpl.
    split; [reflexivity|]. split; [lia|].
    constructor; [now exists q | assumption].
Qed.

(** X13: when every test case has a "query" key, [test_agent] returns,
    whatever the dispatcher does, one entry per test case and in the same
    order; each entry has exactly the keys query, response, status and
    time, repeats the query, and either has status "error", the apology as
    response and time 0, or has status "success", a text response and a
    float time; and [total_queries] has grown by the number of test
    cases. *)
Theorem test_agent_results agent (test_cases : list (gmap string string)) s :
  Forall (fun test => is_Some (test !! "query")) test_cases ->
  exists entries s',
    test_agent agent test_cases s = (Returns entries, s') /\
    length entries = length test_cases /\
    total_queries (metrics s')
    = total_queries (metrics s) + Z.of_nat (length test_cases) /\
    Forall2 (fun test entry => exists q, test !! "query" = Some q /\ entry_for q entry)
            test_cases entries.
Proof.
  intros Hall.
  destruct (test_agent_from_entries agent test_cases [] s Hall)
    as (entries & s' & Hfrom & Ht & Hf).
  exists entries, s'. split; [exact Hfrom|].
  split; [symmetry; exact (Forall2_length _ _ _ Hf)|]. split; assumption.
Qed.

(** X14: a test case without a "query" key makes [test_agent] raise
    [KeyError] instead of returning the entries collected so far, while
    the invocations made for the test cases before it stay counted. *)
Theorem test_agent_missing_query agent (before after : list (gmap string string))
    (bad : gmap string string) s :
  Forall (fun test => is_Some (test !! "query")) before ->
  bad !! "query" = None ->
  exists s',
    test_agent agent (before ++ bad :: after)%list s
    = (Raises (Exn "KeyError" "'query'"), s') /\
    total_queries (metrics s')
    = total_queries (metrics s) + Z.of_nat (length before).
Proof.
  intros Hall Hbad. unfold test_agent. generalize (@nil pydict) as results.
  revert s. induction before as [|test rest IH]; intros s results.
  - exists s. simpl. unfold bind, test_agent_body, case_getitem, bind, lift_outcome.
    rewrite Hbad. split; [reflexivity | lia].
  - inversion Hall as [|? ? [q Hq] Hrest]; subst.
    destruct (test_agent_body_entry agent test q s Hq) as (entry & s1 & Hbody & Ht & _).
    destruct (IH Hrest s1 (results ++ [entry])%list) as (s2 & Hfrom & Ht2).
    exists s2. simpl. unfold bind at 1. rewrite Hbody. split; [exact Hfrom|].
    rewrite Ht2, Ht. simpl length. lia.
Qed.

Lemma test_agent_results_witness :
  exists entries s',
    test_agent escalating_agent test_cases fresh_state = (Returns entries, s') /\
    length entries = 4%nat /\
    total_queries (metrics s') = 4.
Proof.
  destruct (test_agent_results escalating_agent test_cases fresh_state)
    as (entries & s' & Hrun & Hlen & Ht & _).
  { repeat constructor; eexists; reflexivity. }
  exists entries, s'. split; [exact Hrun|]. split; [exact Hlen | exact Ht].
Defined.

Lemma test_agent_missing_query_witness :
  exists s',
    test_agent resolving_agent
      [ {[ "query" := "Where is order #12345?" ]};
        {[ "question" := "Is product XYZ in stock?" ]};
        {[ "query" := "Can I return electronics after 45 days?" ]} ]
      fresh_state
    = (Raises (Exn "KeyError" "'query'"), s') /\
    total_queries (metrics s') = 1.
Proof.
  apply (test_agent_missing_query resolving_agent
           [ {[ "query" := "Where is order #12345?" ]} ]
           [ {[ "query" := "Can I return electronics after 45 days?" ]} ]
           {[ "question" := "Is product XYZ in stock?" ]} fresh_state).
  - repeat constructor. eexists. reflexivity.
  - reflexivity.
Defined.

(** ** The installation tester: [log_test] *)

Lemma filter_length_split {A : Type} (p : A -> bool) (l : list A) :
  (length (List.filter p l) + length (List.filter (fun x => negb (p x)) l))%nat
  = length l.
Proof.
  induction l as [|x l IH]; simpl; [reflexivity|].
  destruct (p x); simpl; lia.
Qed.

Lemma counters_match_log_init w : counters_match_log (AgentInstallationTester_init w).
Proof.
  unfold counters_match_log. split; [|repeat split].
  intros c. unfold AgentInstallationTester_init, category_names. simpl.
  rewrite !lookup_insert_is_Some, lookup_singleton_is_Some.
  split; [intuition congruence|].
  destruct (decide ("imports" = c)); [tauto|].
  destruct (decide ("databases" = c)); [tauto|].
  destruct (decide ("agent_functionality" = c)); [tauto|].
  intros [H | [H | [H | [H | []]]]]; tauto.
Qed.

Lemma all_logged_insert (t : Tester) category logged result results' (p : test_record -> bool) :
  In category category_names ->
  test_results t !! category = Some logged ->
  results' = <[category := (logged ++ [result])%list]> (test_results t) ->
  let t' := mkTester results' (passed t) (failed t) (total t) (tester_world t) in
  length (all_logged t') = S (length (all_logged t)) /\
  length (List.filter p (all_logged t'))
  = (length (List.filter p (all_logged t)) + (if p result then 1 else 0))%nat.
Proof.
  intros Hin Hl ->. unfold all_logged, category_names in *. simpl in Hin.
  destruct Hin as [<- | [<- | [<- | [<- | []]]]]; simpl;
    rewrite ?lookup_insert_eq;
    rewrite ?lookup_insert_ne by discriminate;
    rewrite ?lookup_insert_eq;
    rewrite Hl; simpl;
    rewrite ?List.filter_app, ?length_app; simpl;
    destruct (p result); simpl; lia.
Qed.

Lemma log_test_keeps_match category test_name status message error t :
  counters_match_log t ->
  counters_match_log (snd (log_test category test_name status message error t)).
Proof.
  intros (Hdom & Ht & Hp & Hf). unfold log_test.
  destruct (String.eqb category "overall");
    [exact (conj Hdom (conj Ht (conj Hp Hf)))|].
  destruct (test_results t !! category) as [logged|] eqn:Hl;
    [|exact (conj Hdom (conj Ht (conj Hp Hf)))].
  assert (Hin : In category category_names) by (apply Hdom; eauto).
  set (result := TestRecord test_name status message error
                   (isoformat (clock (tester_world t) (ticks (tester_world t))))).
  assert (Hdom' :
    forall c,
      is_Some (<[category := (logged ++ [result])%list]> (test_results t) !! c)
      <-> In c category_names).
  { intros c. rewrite lookup_insert_is_Some, Hdom.
    destruct (decide (category = c)) as [<-|]; tauto. }
  destruct (all_logged_insert t category logged result _ is_pass Hin Hl eq_refl)
    as [Hlen Hpass].
  destruct (all_logged_insert t category logged result _
              (fun r => negb (is_pass r)) Hin Hl eq_refl) as [_ Hfail].
  change (is_pass result) with (String.eqb status "PASS") in Hpass, Hfail.
  unfold counters_match_log, all_logged in *.
  destruct (String.eqb status "PASS"); simpl in *;
    (split; [exact Hdom'|]); lia.
Qed.

Lemma reachable_counters_match t : tester_reachable t -> counters_match_log t.
Proof.
  induction 1 as [w|category test_name status message error t _ IH].
  - apply counters_match_log_init.
  - now apply log_test_keeps_match.
Qed.

Lemma filter_none_forall {A : Type} (p : A -> bool) (l : list A) :
  length (List.filter p l) = 0%nat <-> Forall (fun x => p x = false) l.
Proof.
  induction l as [|x l IH]; simpl.
  - split; [constructor | reflexivity].
  - destruct (p x) eqn:Hx; simpl.
    + split; [discriminate | intros H; inversion H; congruence].
    + rewrite IH. split; [now constructor | intros H; now inversion H].
Qed.

(** X15: in every state a tester reaches, by calls of [log_test] that
    return or raise, [passed + failed] equals [total], and [total] is the
    number of results stored under the four categories. *)
Theorem log_test_counters_invariant (t : Tester) :
  tester_reachable t ->
  passed t + failed t = total t /\
  total t = Z.of_nat (length (all_logged t)) /\
  0 <= passed t /\ 0 <= failed t.
Proof.
  intros Hr. destruct (reachable_counters_match t Hr) as (_ & Ht & Hp & Hf).
  pose proof (filter_length_split is_pass (all_logged t)). lia.
Qed.

Lemma log_test_counters_invariant_witness :
  let t := snd (log_test "environment" "Virtual Environment Detection" "WARN"
                  "Not running within a virtual environment" None
                  (snd (log_test "imports" "Import sqlite3" "PASS"
                          "Successfully imported" None
                          (AgentInstallationTester_init sample_world)))) in
  passed t + failed t = total t /\ total t = 2.
Proof.
  simpl.
  destruct (log_test_counters_invariant
              (snd (log_test "environment" "Virtual Environment Detection" "WARN"
                      "Not running within a virtual environment" None
                      (snd (log_test "imports" "Import sqlite3" "PASS"
                              "Successfully imported" None
                              (AgentInstallationTester_init sample_world))))))
    as (Hsum & _).
  { do 2 apply reachable_log. apply reachable_init. }
  split; [exact Hsum | reflexivity].
Defined.

(** X16: the status [main] exits with is 0 exactly when every result
    logged has the status "PASS"; any other status, "WARN" as much as
    "FAIL", is counted as a failure, so logging one under a category makes
    the exit status 1. *)
Theorem exit_code_zero_iff_all_pass (t : Tester) :
  tester_reachable t ->
  (exit_code t = 0 <-> Forall (fun r => r_status r = "PASS") (all_logged t)) /\
  (forall category test_name status message error,
     In category category_names -> status <> "PASS" ->
     exit_code (snd (log_test category test_name status message error t)) = 1).
Proof.
  intros Hr. destruct (reachable_counters_match t Hr) as (Hdom & Ht & Hp & Hf).
  split.
  - unfold exit_code. destruct (Z.eqb_spec (failed t) 0) as [H0|H0].
    + split; [intros _|reflexivity].
      assert (Hn : length (List.filter (fun r => negb (is_pass r)) (all_logged t))
                   = 0%nat) by lia.
      apply filter_none_forall in Hn. eapply Forall_impl; [exact Hn|].
      intros r Hpass. simpl in Hpass. apply negb_false_iff in Hpass.
      now apply String.eqb_eq.
    + split; [discriminate|]. intros Hall. exfalso. apply H0. rewrite Hf.
      replace (length (List.filter (fun r => negb (is_pass r)) (all_logged t)))
        with 0%nat; [reflexivity|].
      symmetry. apply filter_none_forall. eapply Forall_impl; [exact Hall|].
      intros r Hpass. simpl. apply negb_false_iff. now apply String.eqb_eq.
  - intros category test_name status message error Hin Hs.
    unfold exit_code, log_test.
    destruct (String.eqb_spec category "overall") as [->|_].
    { simpl in Hin. intuition discriminate. }
    destruct (test_results t !! category) as [logged|] eqn:Hl.
    + apply String.eqb_neq in Hs. rewrite Hs. simpl.
      destruct (Z.eqb_spec (failed t + 1) 0); [lia | reflexivity].
    + apply Hdom in Hin. rewrite Hl in Hin. now destruct Hin.
Qed.

Lemma exit_code_zero_iff_all_pass_witness :
  exit_code (AgentInstallationTester_init sample_world) = 0 /\
  exit_code (snd (log_test "environment" "Virtual Environment Detection" "WARN"
                    "Not running within a virtual environment" None
                    (AgentInstallationTester_init sample_world))) = 1.
Proof.
  destruct (exit_code_zero_iff_all_pass (AgentInstallationTester_init sample_world)
              (reachable_init sample_world)) as [Hzero Hwarn].
  split.
  - apply Hzero. constructor.
  - apply Hwarn; [right; right; right; left; reflexivity | discriminate].
Defined.

(** X17: a call of [log_test] with a category that is not one of the four
    raises, [AttributeError] for "overall" and [KeyError] for any other
    name, after the clock has been read; the results and the three
    counters are left as they were. *)
Theorem log_test_unknown_category category test_name status message error t :
  tester_reachable t ->
  ~ In category category_names ->
  exists e t',
    log_test category test_name status message error t = (Raises e, t') /\
    exn_class e = (if String.eqb category "overall"
                   then "AttributeError" else "KeyError") /\
    test_results t' = test_results t /\
    passed t' = passed t /\ failed t' = failed t /\ total t' = total t /\
    tester_world t' = after_now (tester_world t).
Proof.
  intros Hr Hnot. destruct (reachable_counters_match t Hr) as (Hdom & _).
  unfold log_test. destruct (String.eqb category "overall").
  - do 2 eexists. split; [reflexivity|]. repeat split.
  - destruct (test_results t !! category) as [logged|] eqn:Hl.
    + exfalso. apply Hnot, Hdom. eauto.
    + do 2 eexists. split; [reflexivity|]. repeat split.
Qed.

Lemma log_test_unknown_category_witness :
  exists t',
    log_test "network" "Ping" "PASS" "ok" None
      (AgentInstallationTester_init sample_world)
    = (Raises (Exn "KeyError" "'network'"), t') /\
    total t' = 0.
Proof.
  destruct (log_test_unknown_category "network" "Ping" "PASS" "ok" None
              (AgentInstallationTester_init sample_world)
              (reachable_init sample_world))
    as (e & t' & Hlog & _ & _ & _ & _ & Ht & _).
  { simpl. intuition discriminate. }
  exists t'. split; [|exact Ht].
  rewrite Hlog. injection Hlog as <- _. reflexivity.
Defined.

(** X18: in every state a tester reaches, the summary of [run_all_tests]
    computes its success rate without raising; it reports that no tests
    were executed exactly when [total] is 0, and when at least one result
    was logged and none failed, the rate is exactly 100 and the summary is
    the all-tests-passed one, with exit status 0. *)
Theorem summary_banner_all_passed (t : Tester) :
  tester_reachable t ->
  exists b,
    summary_banner t = Returns b /\
    (b = NoTestsExecuted <-> total t = 0) /\
    (failed t = 0 -> 0 < total t -> b = AllTestsPassed /\ exit_code t = 0).
Proof.
  intros Hr.
  destruct (reachable_counters_match t Hr) as (_ & Ht & Hp & Hf).
  pose proof (filter_length_split is_pass (all_logged t)) as Hsum.
  unfold summary_banner. destruct (Z.ltb_spec 0 (total t)) as [Hpos|Hzero].
  - rewrite percentage_in_range by lia.
    destruct (Z.eq_dec (failed t) 0) as [H0|H0].
    + assert (Heq : passed t = total t) by lia. rewrite Heq.
      rewrite int_quot_same by assumption.
      exists AllTestsPassed. split; [vm_compute; reflexivity|].
      split; [split; [discriminate | lia]|].
      intros _ _. split; [reflexivity|]. unfold exit_code. now rewrite H0.
    + destruct (SFeqb _ float_100);
        [|destruct (SFleb _ _)]; eexists; (split; [reflexivity|]);
        (split; [split; [discriminate | lia] | intros; contradiction]).
  - exists NoTestsExecuted. split; [reflexivity|].
    split; [split; [lia | reflexivity] | lia].
Qed.

Lemma summary_banner_all_passed_witness :
  summary_banner (snd (log_test "imports" "Import sqlite3" "PASS"
                         "Successfully imported" None
                         (AgentInstallationTester_init sample_world)))
  = Returns AllTestsPassed /\
  summary_banner (AgentInstallationTester_init sample_world)
  = Returns NoTestsExecuted.
Proof.
  split.
  - destruct (summary_banner_all_passed
                (snd (log_test "imports" "Import sqlite3" "PASS"
                        "Successfully imported" None
                        (AgentInstallationTester_init sample_world))))
      as (b & Hb & _ & Hall).
    { apply reachable_log, reachable_init. }
    destruct Hall as [-> _]; [reflexivity | reflexivity | exact Hb].
  - destruct (summary_banner_all_passed (AgentInstallationTester_init sample_world)
                (reachable_init sample_world)) as (b & Hb & Hnone & _).
    rewrite (proj2 Hnone eq_refl) in Hb. exact Hb.
Defined.
